(** * FractalSync request generator: shallow embedding and verification

    Embedding of [sw/fractal_sync_req_gen.h] and [sw/fractal_sync_req_gen.c].

    - [unsigned int] values are integers in [Z]; the places where the C
      arithmetic can wrap around are written with [wrap] (reduction modulo
      2^32).
    - The array [temp_cus] that the partition engine works on is a list of
      CUs (the memory); a [fsync_cu_t*] into it is an index, and the scratch
      arrays of pointers ([l_cus], [h_cus], ...) are lists of indices. All
      writes go through the pointers into the one shared memory.
    - The recursion of [fsync_partition_subtree] and the [while] loop of the
      two-CU path take a fuel argument; [fsync_partition_subtree_total],
      [hop_loop_total] and [fsync_gen_reqs_total] show that the fuel the entry
      point supplies is always enough.
    - [malloc] is taken to succeed. A call of the engine on an empty subset
      asks for [malloc(0)], which may return [NULL]; [subtree_nil] shows that
      such a call returns [false] and writes nothing in either case. *)

From stdpp Require Import base numbers list.
From Stdlib Require Import ZArith Zbitwise Lia.

Local Open Scope Z_scope.

(** ** Header: constants and types *)

Definition FSYNC_N_CU_X : Z := 4.
Definition FSYNC_N_CU_Y : Z := 4.
Definition FSYNC_N_LVL : Z := 4.
Definition FSYNC_DEFAULT_TH : Z := FSYNC_N_CU_X / 2.

(** Value range of [unsigned int]. *)
Definition wrap (z : Z) : Z := z mod 2 ^ 32.

Definition abs_diff (x y : Z) : Z := if y <? x then x - y else y - x.

Inductive fsync_dir := h_fs_dir | v_fs_dir.
Inductive fsync_node := null_fs_node | h_fs_node | v_fs_node | hv_fs_node.

Record fsync_req_t := mk_req {
  fs_req_aggr : Z;
  fs_req_id : Z;
  req_node : fsync_node
}.

Record fsync_cu_t := mk_cu {
  cu_id : Z;
  y_pos : Z;
  x_pos : Z;
  fsync_req : fsync_req_t
}.

Global Instance fsync_dir_eq_dec : EqDecision fsync_dir.
Proof. solve_decision. Defined.
Global Instance fsync_node_eq_dec : EqDecision fsync_node.
Proof. solve_decision. Defined.

(** Field assignments. *)
Definition set_req (c : fsync_cu_t) (r : fsync_req_t) : fsync_cu_t :=
  mk_cu (cu_id c) (y_pos c) (x_pos c) r.
Definition set_x_pos (c : fsync_cu_t) (x : Z) : fsync_cu_t :=
  mk_cu (cu_id c) (y_pos c) x (fsync_req c).
Definition set_y_pos (c : fsync_cu_t) (y : Z) : fsync_cu_t :=
  mk_cu (cu_id c) y (x_pos c) (fsync_req c).
Definition set_aggr (r : fsync_req_t) (a : Z) : fsync_req_t :=
  mk_req a (fs_req_id r) (req_node r).
Definition set_id (r : fsync_req_t) (i : Z) : fsync_req_t :=
  mk_req (fs_req_aggr r) i (req_node r).
Definition set_node (r : fsync_req_t) (n : fsync_node) : fsync_req_t :=
  mk_req (fs_req_aggr r) (fs_req_id r) n.

(** The request written by [fsync_init_reqs]. *)
Definition default_req : fsync_req_t := mk_req 0 0 null_fs_node.

(** ** Position helpers *)

(** [(pos1 < pos2) ? pos1 & 1 : pos2 & 1], converted to [bool]. *)
Definition fsync_nbr_node (pos1 pos2 : Z) : bool :=
  negb ((if pos1 <? pos2 then Z.land pos1 1 else Z.land pos2 1) =? 0).

Definition fsync_same_subtree (pos1 pos2 threshold : Z) : bool :=
  ((pos1 <? threshold) && (pos2 <? threshold))
  || ((threshold <=? pos1) && (threshold <=? pos2)).

(** [fsync_update_pos] writes [*pos] and returns [threshold/2]; the pair is
    (new [*pos], returned value). *)
Definition fsync_update_pos (pos threshold : Z) : Z * Z :=
  (if pos <? threshold then pos else pos - threshold, threshold / 2).

(** ** Memory and pointers *)

Abbreviation mem := (list fsync_cu_t) (only parsing).
Abbreviation ptr := nat (only parsing).

(** A CU that no pointer of the program ever designates; reading through a
    pointer outside the memory yields it (the program builds its pointers as
    [&temp_cus[i]] for [i < num_cus], so this does not happen). *)
Definition no_cu : fsync_cu_t := mk_cu 0 0 0 default_req.

Definition deref (m : mem) (p : ptr) : fsync_cu_t := default no_cu (m !! p).

(** [for (i = 0; i < num_cus; i++) *cus[i] = body( *cus[i])]. *)
Definition for_each_cu (body : fsync_cu_t → fsync_cu_t) (cus : list ptr) (m : mem) : mem :=
  foldl (λ m' p, alter body p m') m cus.

(** ** Partitioning by one axis

    The result is (node active, [l_cus], [h_cus]); the two lists keep the
    order of [cus]. *)

Definition fsync_partition_h_cus (m : mem) (cus : list ptr) (threshold : Z)
  : bool * list ptr * list ptr :=
  let l_cus := filter (λ p, x_pos (deref m p) < threshold) cus in
  let h_cus := filter (λ p, ¬ x_pos (deref m p) < threshold) cus in
  (bool_decide (0 < length l_cus)%nat && bool_decide (0 < length h_cus)%nat, l_cus, h_cus).

Definition fsync_partition_v_cus (m : mem) (cus : list ptr) (threshold : Z)
  : bool * list ptr * list ptr :=
  let l_cus := filter (λ p, y_pos (deref m p) < threshold) cus in
  let h_cus := filter (λ p, ¬ y_pos (deref m p) < threshold) cus in
  (bool_decide (0 < length l_cus)%nat && bool_decide (0 < length h_cus)%nat, l_cus, h_cus).

(** ** Renormalising positions; the returned threshold is [threshold/2]. *)

Definition fsync_update_h_poss (cus : list ptr) (threshold : Z) (m : mem) : mem * Z :=
  (for_each_cu (λ c, set_x_pos c (fst (fsync_update_pos (x_pos c) threshold))) cus m,
   threshold / 2).

Definition fsync_update_v_poss (cus : list ptr) (threshold : Z) (m : mem) : mem * Z :=
  (for_each_cu (λ c, set_y_pos c (fst (fsync_update_pos (y_pos c) threshold))) cus m,
   threshold / 2).

(** ** Recording a contribution *)

(** Loop body of [fsync_update_cus_req] on one request. *)
Definition update_req (dir : fsync_dir) (node : fsync_node) (node_active : bool)
    (r : fsync_req_t) : fsync_req_t :=
  let aggr := Z.lor (wrap (Z.shiftl (fs_req_aggr r) 1)) (if node_active then 1 else 0) in
  if bool_decide (req_node r = null_fs_node) && node_active
  then mk_req aggr (if bool_decide (dir = h_fs_dir) then 0 else 1) node
  else mk_req aggr (fs_req_id r) (req_node r).

Definition fsync_update_cus_req (cus : list ptr) (dir : fsync_dir) (node : fsync_node)
    (node_active : bool) (m : mem) : mem :=
  for_each_cu (λ c, set_req c (update_req dir node node_active (fsync_req c))) cus m.

(** ** The partition engine *)

Inductive axis := x_axis | y_axis.

(** The block that every branch of [fsync_partition_subtree] runs on its pair
    of halves: record the contribution on both, renormalise the high half on
    [ax], recurse into the low half and then into the high half, and combine
    the activity flags. [sub_th] maps the threshold returned by the position
    update to the threshold of the recursive calls. *)
Definition visit_halves
    (go : list ptr → fsync_dir → Z → fsync_node → mem → option (bool * mem))
    (l_cus h_cus : list ptr) (dir : fsync_dir) (node : fsync_node) (node_active : bool)
    (ax : axis) (threshold : Z) (sub_th : Z → Z) (sub_dir : fsync_dir) (sub_node : fsync_node)
    (m : mem) : option (bool * mem) :=
  let m := fsync_update_cus_req l_cus dir node node_active m in
  let m := fsync_update_cus_req h_cus dir node node_active m in
  let '(m, th2) := match ax with
                   | x_axis => fsync_update_h_poss h_cus threshold m
                   | y_axis => fsync_update_v_poss h_cus threshold m
                   end in
  match go l_cus sub_dir (sub_th th2) sub_node m with
  | None => None
  | Some (l_subtree_active, m) =>
    match go h_cus sub_dir (sub_th th2) sub_node m with
    | None => None
    | Some (h_subtree_active, m) =>
      Some (node_active || l_subtree_active || h_subtree_active, m)
    end
  end.

Fixpoint fsync_partition_subtree (fuel : nat) (cus : list ptr) (dir : fsync_dir)
    (threshold : Z) (node : fsync_node) (m : mem) : option (bool * mem) :=
  match fuel with
  | O => None
  | S fuel =>
    if threshold <? 1 then Some (false, m) else
    match node with
    | hv_fs_node =>
      let '(h_node_active, h_l_cus, h_h_cus) := fsync_partition_h_cus m cus threshold in
      let '(v_node_active, v_l_cus, v_h_cus) := fsync_partition_v_cus m cus threshold in
      let node_active := h_node_active && v_node_active in
      let same := λ _ : Z, threshold in
      if node_active || (negb h_node_active && negb v_node_active) then
        match dir with
        | h_fs_dir =>
          visit_halves (fsync_partition_subtree fuel) v_l_cus v_h_cus dir node node_active
                       y_axis threshold same h_fs_dir h_fs_node m
        | v_fs_dir =>
          visit_halves (fsync_partition_subtree fuel) h_l_cus h_h_cus dir node node_active
                       x_axis threshold same v_fs_dir v_fs_node m
        end
      else if h_node_active then
        visit_halves (fsync_partition_subtree fuel) v_l_cus v_h_cus dir node node_active
                     y_axis threshold same h_fs_dir h_fs_node m
      else
        visit_halves (fsync_partition_subtree fuel) h_l_cus h_h_cus dir node node_active
                     x_axis threshold same v_fs_dir v_fs_node m
    | _ =>
      let '(node_active, l_cus, h_cus) :=
        match dir with
        | h_fs_dir => fsync_partition_h_cus m cus threshold
        | v_fs_dir => fsync_partition_v_cus m cus threshold
        end in
      visit_halves (fsync_partition_subtree fuel) l_cus h_cus dir node node_active
                   (match dir with h_fs_dir => x_axis | v_fs_dir => y_axis end)
                   threshold (λ th2, th2) dir hv_fs_node m
    end
  end.

(** ** Entry points *)

Definition fsync_init_reqs (cus : list fsync_cu_t) : list fsync_cu_t :=
  (λ c, set_req c default_req) <$> cus.

(** *** Two CUs *)

(** Lines 176-185: choice of [dir] and first write of [req_node]. *)
Definition pair_tag (x_dist y_dist : Z) (default_dir : fsync_dir) : fsync_dir * fsync_node :=
  if y_dist <? x_dist then (h_fs_dir, h_fs_node)
  else if x_dist =? y_dist then (default_dir, hv_fs_node)
  else (v_fs_dir, v_fs_node).

(** Lines 187-201: orthogonal neighbours. *)
Definition nbr_id (dir : fsync_dir) (c0 c1 : fsync_cu_t) : Z :=
  match dir with
  | h_fs_dir => if fsync_nbr_node (x_pos c0) (x_pos c1) then 2 else 0
  | v_fs_dir => if fsync_nbr_node (y_pos c0) (y_pos c1) then 3 else 1
  end.

(** Local variables of the [while] loop of lines 203-222. *)
Record hop_state := mk_hop {
  hops : Z;
  x_th : Z; y_th : Z;
  x_p0 : Z; x_p1 : Z;
  y_p0 : Z; y_p1 : Z
}.

(** One iteration of the loop body; the second component is [done]. *)
Definition hop_body (s : hop_state) : hop_state * bool :=
  let '(s, done) :=
    if fsync_same_subtree (x_p0 s) (x_p1 s) (x_th s) && (0 <? x_th s)
    then (mk_hop (wrap (hops s - 1))
                 (snd (fsync_update_pos (x_p1 s) (x_th s))) (y_th s)
                 (fst (fsync_update_pos (x_p0 s) (x_th s)))
                 (fst (fsync_update_pos (x_p1 s) (x_th s)))
                 (y_p0 s) (y_p1 s), false)
    else (s, true) in
  if fsync_same_subtree (y_p0 s) (y_p1 s) (y_th s) && (0 <? y_th s)
  then (mk_hop (wrap (hops s - 1))
               (x_th s) (snd (fsync_update_pos (y_p1 s) (y_th s)))
               (x_p0 s) (x_p1 s)
               (fst (fsync_update_pos (y_p0 s) (y_th s)))
               (fst (fsync_update_pos (y_p1 s) (y_th s))), done)
  else (s, true).

Fixpoint hop_loop (fuel : nat) (s : hop_state) : option hop_state :=
  match fuel with
  | O => None
  | S fuel =>
    let '(s, done) := hop_body s in
    if done then Some s else hop_loop fuel s
  end.

Definition hop_init (c0 c1 : fsync_cu_t) : hop_state :=
  mk_hop FSYNC_N_LVL (FSYNC_N_CU_X / 2) (FSYNC_N_CU_Y / 2)
         (x_pos c0) (x_pos c1) (y_pos c0) (y_pos c1).

Definition hop_fuel : nat := S (Z.to_nat (FSYNC_N_CU_X / 2)).

(** The value of [hops] when the loop exits. *)
Definition pair_hops (c0 c1 : fsync_cu_t) : option Z :=
  hops <$> hop_loop hop_fuel (hop_init c0 c1).

(** The two CUs after lines 176-185, with the chosen [dir]. *)
Definition pair_tagged (c0 c1 : fsync_cu_t) (default_dir : fsync_dir)
  : fsync_dir * fsync_cu_t * fsync_cu_t :=
  let x_dist := abs_diff (x_pos c0) (x_pos c1) in
  let y_dist := abs_diff (y_pos c0) (y_pos c1) in
  let '(dir, tag) := pair_tag x_dist y_dist default_dir in
  (dir, set_req c0 (set_node (fsync_req c0) tag), set_req c1 (set_node (fsync_req c1) tag)).

(** The [num_cus == 2] branch of [fsync_gen_reqs], on the two CUs as
    [fsync_init_reqs] left them. *)
Definition fsync_gen_pair (c0 c1 : fsync_cu_t) (default_dir : fsync_dir)
  : option (bool * list fsync_cu_t) :=
  let x_dist := abs_diff (x_pos c0) (x_pos c1) in
  let y_dist := abs_diff (y_pos c0) (y_pos c1) in
  let dist := wrap (x_dist + y_dist) in
  if dist =? 0 then Some (false, [c0; c1]) else
  let '(dir, c0, c1) := pair_tagged c0 c1 default_dir in
  if dist =? 1 then
    let put := λ c, set_req c (set_id (set_aggr (fsync_req c) 1) (nbr_id dir c0 c1)) in
    Some (true, [put c0; put c1])
  else
    match pair_hops c0 c1 with
    | None => None
    | Some hops =>
      if 1 <? hops then
        let aggregate := wrap (Z.shiftl 1 (hops - 1)) in
        let put := λ c,
          match dir with
          | h_fs_dir => set_req c (mk_req aggregate 0 h_fs_node)
          | v_fs_dir => set_req c (mk_req aggregate 1 v_fs_node)
          end in
        Some (true, [put c0; put c1])
      else Some (false, [c0; c1])
    end.

(** *** Any number of CUs *)

Definition subtree_fuel : nat := Z.to_nat (2 * FSYNC_DEFAULT_TH + 2).

(** Lines 249-253: the request fields of [temp_cus] are copied onto [cus]. *)
Definition copy_back (cus temp_cus : list fsync_cu_t) : list fsync_cu_t :=
  zip_with (λ c t, set_req c (fsync_req t)) cus temp_cus.

(** The result is the returned flag and the caller's array after the call. *)
Definition fsync_gen_reqs (cus : list fsync_cu_t) (default_dir : fsync_dir)
  : option (bool * list fsync_cu_t) :=
  let cus := fsync_init_reqs cus in
  match cus with
  | [] | [_] => Some (false, cus)
  | [c0; c1] => fsync_gen_pair c0 c1 default_dir
  | _ =>
    let temp_cus := cus in
    let cus_ptr := seq 0 (length cus) in
    match fsync_partition_subtree subtree_fuel cus_ptr default_dir FSYNC_DEFAULT_TH
                                  hv_fs_node temp_cus with
    | None => None
    | Some (generated_reqs, temp_cus) => Some (generated_reqs, copy_back cus temp_cus)
    end
  end.

(** ** The scenario of [tests/fractal_sync_req_gen_test.c] *)

(** A CU as the test initialises it: [cu_id], [y_pos], [x_pos]. *)
Definition cu (id y x : Z) : fsync_cu_t := mk_cu id y x default_req.

Definition test_cus : list fsync_cu_t :=
  [cu 0 0 0; cu 5 1 1; cu 2 0 2; cu 3 0 3; cu 8 2 0; cu 10 2 2; cu 11 2 3; cu 15 3 3].

(** * Vocabulary of the statements *)

(** The two halves of a partition: pointers of [cus], none in both, and no
    pointer twice if [cus] has none twice. *)
Definition halves_of (cus l h : list ptr) : Prop :=
  (∀ p, p ∈ l → p ∈ cus) ∧ (∀ p, p ∈ h → p ∈ cus) ∧
  (∀ p, p ∈ l → p ∉ h) ∧
  (NoDup cus → NoDup l ∧ NoDup h).

(** The coordinate of a CU on an axis. *)
Definition pos_on (ax : axis) (c : fsync_cu_t) : Z :=
  match ax with x_axis => x_pos c | y_axis => y_pos c end.

(** The memory on which the recursive calls of a node start. *)
Definition halves_mem (l_cus h_cus : list ptr) (dir : fsync_dir) (node : fsync_node)
    (node_active : bool) (ax : axis) (threshold : Z) (m : mem) : mem :=
  let m := fsync_update_cus_req l_cus dir node node_active m in
  let m := fsync_update_cus_req h_cus dir node node_active m in
  match ax with
  | x_axis => fst (fsync_update_h_poss h_cus threshold m)
  | y_axis => fst (fsync_update_v_poss h_cus threshold m)
  end.

(** Fuel that a call of the engine needs: two calls per halving of the
    threshold, the combined one first. *)
Definition subtree_measure (th : Z) (node : fsync_node) : nat :=
  Z.to_nat (2 * th) + (if bool_decide (node = hv_fs_node) then 1 else 0).

(** The position update on axis [ax] at one CU. *)
Definition renorm (ax : axis) (th : Z) (c : fsync_cu_t) : fsync_cu_t :=
  match ax with
  | x_axis => set_x_pos c (fst (fsync_update_pos (x_pos c) th))
  | y_axis => set_y_pos c (fst (fsync_update_pos (y_pos c) th))
  end.

(** One left-shift-and-set-low-bit step on an aggregate. *)
Definition shift_in (aggr : Z) (bit : bool) : Z :=
  Z.lor (wrap (Z.shiftl aggr 1)) (if bit then 1 else 0).

(** [a'] is [a] after at most [n] left-shift-and-set-low-bit steps. *)
Definition grown_by (n : nat) (a a' : Z) : Prop :=
  ∃ bits : list bool, (length bits ≤ n)%nat ∧ a' = foldl shift_in a bits.

(** Number of contributions that a call of the engine at threshold [th] and
    node kind [node] records on one CU: two per halving of the threshold, the
    combined one first. *)
Definition subtree_levels (th : Z) (node : fsync_node) : nat :=
  if th <? 1 then O
  else (2 * Z.to_nat (Z.log2 th) + (if bool_decide (node = hv_fs_node) then 2 else 1))%nat.

(** All CUs that [cus] points to are at position ([x], [y]). *)
Definition same_pos (m : mem) (cus : list ptr) (x y : Z) : Prop :=
  ∀ p, p ∈ cus → ∃ c, m !! p = Some c ∧ x_pos c = x ∧ y_pos c = y.

(** [c'] has the request of [c], provided the aggregate of [c] is 0. *)
Definition req_kept (c c' : fsync_cu_t) : Prop :=
  fs_req_aggr (fsync_req c) = 0 → fsync_req c' = fsync_req c.

(** [c'] has the node and the id of [c], provided the node of [c] is set. *)
Definition node_kept (c c' : fsync_cu_t) : Prop :=
  req_node (fsync_req c) ≠ null_fs_node →
  req_node (fsync_req c') = req_node (fsync_req c) ∧
  fs_req_id (fsync_req c') = fs_req_id (fsync_req c).

(** Follows the wording of the specification (section 4.3, step 4): one
    axis walked on its own, counting the levels at which both coordinates lie
    in the same half of a threshold that is not yet zero. *)
Fixpoint axis_walk (fuel : nat) (p0 p1 th : Z) : nat :=
  match fuel with
  | O => O
  | S fuel =>
    if fsync_same_subtree p0 p1 th && (0 <? th)
    then S (axis_walk fuel (fst (fsync_update_pos p0 th)) (fst (fsync_update_pos p1 th))
                      (th / 2))
    else O
  end.

(** A threshold [th] reaches zero within [th] halvings. *)
Definition axis_steps (p0 p1 th : Z) : nat := axis_walk (Z.to_nat th) p0 p1 th.

(** The hop count of independent walks, as the specification words it. *)
Definition independent_hops (c0 c1 : fsync_cu_t) : Z :=
  FSYNC_N_LVL
  - Z.of_nat (axis_steps (x_pos c0) (x_pos c1) (FSYNC_N_CU_X / 2))
  - Z.of_nat (axis_steps (y_pos c0) (y_pos c1) (FSYNC_N_CU_Y / 2)).

(** The hop count of the lockstep walk: an axis stops when it would stop on
    its own, and at the latest one level after the other axis has stopped. *)
Definition lockstep_hops (c0 c1 : fsync_cu_t) : Z :=
  let sx := axis_steps (x_pos c0) (x_pos c1) (FSYNC_N_CU_X / 2) in
  let sy := axis_steps (y_pos c0) (y_pos c1) (FSYNC_N_CU_Y / 2) in
  FSYNC_N_LVL - Z.of_nat (sx `min` S sy) - Z.of_nat (sy `min` S sx).

(** The axis with the larger distance; [default_dir] on a tie. *)
Definition deciding_dir (x_dist y_dist : Z) (default_dir : fsync_dir) : fsync_dir :=
  if y_dist <? x_dist then h_fs_dir
  else if x_dist <? y_dist then v_fs_dir
  else default_dir.

(** The request of an axis: id 0 and Horizontal, or id 1 and Vertical. *)
Definition dir_req (aggr : Z) (dir : fsync_dir) : fsync_req_t :=
  match dir with
  | h_fs_dir => mk_req aggr 0 h_fs_node
  | v_fs_dir => mk_req aggr 1 v_fs_node
  end.

(** The request of two orthogonal neighbours. *)
Definition nbr_req (c0 c1 : fsync_cu_t) : fsync_req_t :=
  if abs_diff (y_pos c0) (y_pos c1) <? abs_diff (x_pos c0) (x_pos c1)
  then mk_req 1 (if Z.odd (x_pos c0 `min` x_pos c1) then 2 else 0) h_fs_node
  else mk_req 1 (if Z.odd (y_pos c0 `min` y_pos c1) then 3 else 1) v_fs_node.

(** Degenerate input: fewer than two CUs, two CUs at one position, or two
    CUs further apart than neighbours whose hop count is not positive. *)
Inductive degenerate : list fsync_cu_t → Prop :=
| degenerate_few cus : (length cus < 2)%nat → degenerate cus
| degenerate_same c0 c1 :
    x_pos c0 = x_pos c1 → y_pos c0 = y_pos c1 → degenerate [c0; c1]
| degenerate_hops c0 c1 h :
    1 < wrap (abs_diff (x_pos c0) (x_pos c1) + abs_diff (y_pos c0) (y_pos c1)) →
    pair_hops c0 c1 = Some h → h ≤ 0 →
    degenerate [c0; c1].

(** [c'] has the identity and the position of [c]. *)
Definition same_place (c c' : fsync_cu_t) : Prop :=
  cu_id c' = cu_id c ∧ x_pos c' = x_pos c ∧ y_pos c' = y_pos c.

(** The node that a two-CU call failing on its hop count leaves in both
    requests: the one written by the distance comparison. *)
Definition hop_failure_node (cus : list fsync_cu_t) (default_dir : fsync_dir)
  : option fsync_node :=
  match cus with
  | [c0; c1] =>
    let x_dist := abs_diff (x_pos c0) (x_pos c1) in
    let y_dist := abs_diff (y_pos c0) (y_pos c1) in
    if (1 <? wrap (x_dist + y_dist)) && (lockstep_hops c0 c1 <=? 1)
    then Some (snd (pair_tag x_dist y_dist default_dir))
    else None
  | _ => None
  end.

(** The position lies on the configured grid. *)
Definition in_grid (c : fsync_cu_t) : Prop :=
  0 ≤ x_pos c < FSYNC_N_CU_X ∧ 0 ≤ y_pos c < FSYNC_N_CU_Y.

(** Number of set bits of an [unsigned int]. *)
Definition popcount (z : Z) : nat :=
  length (filter (λ i : nat, Z.testbit z (Z.of_nat i) = true) (seq 0 32)).

(** The aggregate is 0 after at most [FSYNC_N_LVL] left-shift-and-set-low-bit
    steps. *)
Definition aggr_grown (c : fsync_cu_t) : Prop :=
  grown_by (Z.to_nat FSYNC_N_LVL) 0 (fs_req_aggr (fsync_req c)).

(** The value of [node_active] in a call of the engine on [cus] at a node of
    kind [node]: both partitions split at a combined node, the partition of
    the traversal direction splits at a single-axis node. *)
Definition node_active_at (m : mem) (cus : list ptr) (dir : fsync_dir) (th : Z)
    (node : fsync_node) : bool :=
  let h_node_active := fst (fst (fsync_partition_h_cus m cus th)) in
  let v_node_active := fst (fst (fsync_partition_v_cus m cus th)) in
  match node with
  | hv_fs_node => h_node_active && v_node_active
  | _ => match dir with h_fs_dir => h_node_active | v_fs_dir => v_node_active end
  end.

(** The id that goes with a traversal direction. *)
Definition dir_id (dir : fsync_dir) : Z :=
  match dir with h_fs_dir => 0 | v_fs_dir => 1 end.

(** A contribution recorded on a request whose node is None: one bit is
    appended to the aggregate, and an active node puts its kind and the id
    of the direction. *)
Definition recorded (dir : fsync_dir) (node : fsync_node) (act : bool)
    (r : fsync_req_t) : fsync_req_t :=
  mk_req (Z.lor (wrap (Z.shiftl (fs_req_aggr r) 1)) (if act then 1 else 0))
         (if act then dir_id dir else fs_req_id r)
         (if act then node else null_fs_node).

(** ** Vocabulary of the further properties *)

Global Instance axis_eq_dec : EqDecision axis.
Proof. solve_decision. Defined.

(** The axis that a single-axis node of direction [dir] splits. *)
Definition dir_axis (dir : fsync_dir) : axis :=
  match dir with h_fs_dir => x_axis | v_fs_dir => y_axis end.

(** The node kind and direction of a call as the engine itself makes them:
    a single-axis node is Horizontal with direction Horizontal or Vertical
    with direction Vertical, and no node is None. *)
Definition node_of_dir (dir : fsync_dir) (node : fsync_node) : Prop :=
  node = hv_fs_node ∨
  (dir = h_fs_dir ∧ node = h_fs_node) ∨ (dir = v_fs_dir ∧ node = v_fs_node).

(** The id and node that a successful call may leave in a request. *)
Definition request_sel (node : fsync_node) (id : Z) : Prop :=
  match node with
  | null_fs_node => False
  | h_fs_node => id = 0 ∨ id = 2
  | v_fs_node => id = 1 ∨ id = 3
  | hv_fs_node => id = 0 ∨ id = 1
  end.

(** Every CU that [cus] points to has the request of [fsync_init_reqs]. *)
Definition fresh (m : mem) (cus : list ptr) : Prop :=
  ∀ p, p ∈ cus → ∃ c, m !! p = Some c ∧ fsync_req c = default_req.

(** Every CU that [cus] points to has node [node], id [id] and a positive
    aggregate. *)
Definition marked (m : mem) (cus : list ptr) (node : fsync_node) (id : Z) : Prop :=
  ∀ p, p ∈ cus →
    ∃ c, m !! p = Some c ∧ req_node (fsync_req c) = node ∧
         fs_req_id (fsync_req c) = id ∧ 1 ≤ fs_req_aggr (fsync_req c).

(** Bound on the coordinates of the CUs that a call of the engine receives,
    when the caller's CUs lie on a grid of side [4 * threshold] at the root:
    twice the threshold at a combined node; at a single-axis node twice the
    threshold on the axis that the node splits and the threshold on the
    other axis, which the combined node above has renormalised. *)
Definition node_box (th : Z) (dir : fsync_dir) (node : fsync_node) (ax : axis) : Z :=
  match node, dir, ax with
  | hv_fs_node, _, _ => 2 * th
  | _, h_fs_dir, x_axis => 2 * th
  | _, v_fs_dir, y_axis => 2 * th
  | _, _, _ => th
  end.

(** Every CU that [cus] points to has its coordinates below [bound]. *)
Definition boxed (m : mem) (cus : list ptr) (bound : axis → Z) : Prop :=
  ∀ p, p ∈ cus → ∃ c, m !! p = Some c ∧ ∀ ax, 0 ≤ pos_on ax c < bound ax.

(** All CUs of the list are at position ([x], [y]). *)
Definition all_at (x y : Z) (cus : list fsync_cu_t) : Prop :=
  Forall (λ c, x_pos c = x ∧ y_pos c = y) cus.

(** What a partition of [cus] at [th] by the coordinate [key] returns: the
    two halves are [cus] in its order with nothing lost or doubled, the low
    half lies below the threshold and the high half at or above it, and the
    flag tells whether both halves are non-empty. *)
Definition partition_ok (key : fsync_cu_t → Z) (m : mem) (cus : list ptr) (th : Z)
    (r : bool * list ptr * list ptr) : Prop :=
  let '(act, l, h) := r in
  l ++ h ≡ₚ cus ∧ l `sublist_of` cus ∧ h `sublist_of` cus ∧
  (length l + length h = length cus)%nat ∧
  Forall (λ p, key (deref m p) < th) l ∧ Forall (λ p, th ≤ key (deref m p)) h ∧
  (act = true ↔ l ≠ [] ∧ h ≠ []).

(** The position update of the engine on axis [ax]. *)
Definition update_poss_on (ax : axis) (cus : list ptr) (th : Z) (m : mem) : mem * Z :=
  match ax with
  | x_axis => fsync_update_h_poss cus th m
  | y_axis => fsync_update_v_poss cus th m
  end.

(** The result of a call with the two CUs in the other order. *)
Definition swap_result (r : option (bool * list fsync_cu_t)) : option (bool * list fsync_cu_t) :=
  (λ '(b, cus), (b, reverse cus)) <$> r.

(** Memory [m2] holds at index [f i] the CU that memory [m1] holds at index
    [i]: the same CUs, stored in another order. *)
Definition relabelled (f : nat → nat) (m1 m2 : mem) : Prop :=
  ∀ i, m1 !! i = m2 !! f i.

(** Two runs of the engine agree: both run out of fuel, or both return, with
    the same flag and with memories that hold the same CUs up to [f]. *)
Definition same_run (f : nat → nat) (r1 r2 : option (bool * mem)) : Prop :=
  match r1, r2 with
  | Some (b1, m1), Some (b2, m2) => b1 = b2 ∧ relabelled f m1 m2
  | None, None => True
  | _, _ => False
  end.

(** Two CUs at one position with one request. *)
Definition twins (c c' : fsync_cu_t) : Prop :=
  x_pos c = x_pos c' ∧ y_pos c = y_pos c' ∧ fsync_req c = fsync_req c'.

(** * Verification *)

(** ** Loops over pointer lists *)

Section for_each.
Context (body : fsync_cu_t → fsync_cu_t).

Lemma for_each_cu_nil m : for_each_cu body [] m = m.
Proof. reflexivity. Qed.

Lemma for_each_cu_cons p cus m :
  for_each_cu body (p :: cus) m = for_each_cu body cus (alter body p m).
Proof. reflexivity. Qed.

Lemma for_each_cu_length cus m : length (for_each_cu body cus m) = length m.
Proof.
  revert m. induction cus as [|p cus IH]; intros m; [done|].
  rewrite for_each_cu_cons, IH. apply length_alter.
Qed.

(** A CU that is not pointed to is not written. *)
Lemma for_each_cu_lookup_notin cus m i :
  i ∉ cus → for_each_cu body cus m !! i = m !! i.
Proof.
  revert m. induction cus as [|p cus IH]; intros m Hi; [done|].
  apply not_elem_of_cons in Hi as [Hne Hi].
  rewrite for_each_cu_cons, IH by done. by apply list_lookup_alter_ne.
Qed.

(** A CU that is pointed to once gets the body applied once. *)
Lemma for_each_cu_lookup_in cus m i :
  NoDup cus → i ∈ cus → for_each_cu body cus m !! i = body <$> m !! i.
Proof.
  revert m. induction cus as [|p cus IH]; intros m Hnd Hi.
  - by apply elem_of_nil in Hi.
  - apply NoDup_cons in Hnd as [Hp Hnd]. rewrite for_each_cu_cons.
    apply elem_of_cons in Hi as [->|Hi].
    + rewrite for_each_cu_lookup_notin by done. apply list_lookup_alter_eq.
    + rewrite IH by done. rewrite list_lookup_alter_ne; [done|].
      intros ->. contradiction.
Qed.

(** A transitive relation that the body respects relates the memory before
    the loop to the memory after it. *)
Lemma for_each_cu_rel (R : relation fsync_cu_t) `{!Transitive R} cus m0 m :
  (∀ c, R c (body c)) →
  Forall2 R m0 m → Forall2 R m0 (for_each_cu body cus m).
Proof.
  intros Hbody. revert m. induction cus as [|p cus IH]; intros m Hm; [done|].
  rewrite for_each_cu_cons. apply IH.
  apply Forall2_alter_r; [done|]. intros x y _ _ Hxy.
  by transitivity y.
Qed.
End for_each.

(** ** Partitions *)

Lemma nonempty_flags {A} (l h : list A) :
  bool_decide (0 < length l)%nat && bool_decide (0 < length h)%nat
  = bool_decide (l ≠ [] ∧ h ≠ []).
Proof.
  destruct l, h; simpl; repeat case_bool_decide; simpl in *;
    first [ done | lia | naive_solver ].
Qed.

Lemma partition_h_spec m cus th act l h :
  fsync_partition_h_cus m cus th = (act, l, h) →
  l = filter (λ p, x_pos (deref m p) < th) cus ∧
  h = filter (λ p, ¬ x_pos (deref m p) < th) cus ∧
  act = bool_decide (l ≠ [] ∧ h ≠ []).
Proof.
  unfold fsync_partition_h_cus. intros [= <- <- <-]. split_and!; [done..|].
  apply nonempty_flags.
Qed.

Lemma partition_v_spec m cus th act l h :
  fsync_partition_v_cus m cus th = (act, l, h) →
  l = filter (λ p, y_pos (deref m p) < th) cus ∧
  h = filter (λ p, ¬ y_pos (deref m p) < th) cus ∧
  act = bool_decide (l ≠ [] ∧ h ≠ []).
Proof.
  unfold fsync_partition_v_cus. intros [= <- <- <-]. split_and!; [done..|].
  apply nonempty_flags.
Qed.

Lemma filter_halves (P : ptr → Prop) `{!∀ p, Decision (P p)} (cus : list ptr) :
  halves_of cus (filter P cus) (filter (λ p, ¬ P p) cus).
Proof.
  split_and!.
  - intros p Hp. by apply list_elem_of_filter in Hp as [_ ?].
  - intros p Hp. by apply list_elem_of_filter in Hp as [_ ?].
  - intros p Hl Hh. apply list_elem_of_filter in Hl as [? _].
    apply list_elem_of_filter in Hh as [? _]. contradiction.
  - intros Hnd. split; by apply NoDup_filter.
Qed.

(** ** Unfolding the partition engine *)

Local Arguments fsync_partition_h_cus : simpl never.
Local Arguments fsync_partition_v_cus : simpl never.
Local Arguments fsync_update_cus_req : simpl never.
Local Arguments fsync_update_h_poss : simpl never.
Local Arguments fsync_update_v_poss : simpl never.
Local Arguments visit_halves : simpl never.

Lemma visit_halves_inv go l h dir node act ax th sub_th sd sn m b m' :
  visit_halves go l h dir node act ax th sub_th sd sn m = Some (b, m') →
  ∃ lb hb m1,
    go l sd (sub_th (th / 2)) sn (halves_mem l h dir node act ax th m) = Some (lb, m1) ∧
    go h sd (sub_th (th / 2)) sn m1 = Some (hb, m') ∧
    b = act || lb || hb.
Proof.
  unfold visit_halves, halves_mem.
  destruct ax; simpl.
  all: destruct (go l _ _ _ _) as [[lb m1]|] eqn:Hl; [|done].
  all: destruct (go h _ _ _ _) as [[hb m2]|] eqn:Hh; [|done].
  all: intros [= <- <-]; by exists lb, hb, m1.
Qed.

Lemma visit_halves_is_Some go l h dir node act ax th sub_th sd sn m :
  (∀ cus m, is_Some (go cus sd (sub_th (th / 2)) sn m)) →
  is_Some (visit_halves go l h dir node act ax th sub_th sd sn m).
Proof.
  intros Hrec. unfold visit_halves.
  destruct (match ax with x_axis => _ | y_axis => _ end) as [m0 th2] eqn:E.
  assert (th2 = th / 2) as -> by (destruct ax; by injection E).
  destruct (Hrec l m0) as [[lb m1] ->].
  destruct (Hrec h m1) as [[hb m2] ->].
  done.
Qed.

(** What one call of the engine does, for all five branches at once: it
    returns at once below threshold 1; otherwise it splits [cus] on an axis
    [ax], records the contribution of a node with flag [act], and recurses
    into the two halves with threshold [th'] and node kind [sn]. *)
Lemma subtree_unfold fuel cus dir th node m b m' :
  fsync_partition_subtree (S fuel) cus dir th node m = Some (b, m') →
  (th < 1 ∧ b = false ∧ m' = m) ∨
  (1 ≤ th ∧ ∃ act ax l h th' sd sn lb hb m1,
     l = filter (λ p, pos_on ax (deref m p) < th) cus ∧
     h = filter (λ p, ¬ pos_on ax (deref m p) < th) cus ∧
     (act = true → l ≠ [] ∧ h ≠ []) ∧
     ((node = hv_fs_node ∧ th' = th ∧ sn ≠ hv_fs_node) ∨
      (node ≠ hv_fs_node ∧ th' = th / 2 ∧ sn = hv_fs_node)) ∧
     fsync_partition_subtree fuel l sd th' sn (halves_mem l h dir node act ax th m)
       = Some (lb, m1) ∧
     fsync_partition_subtree fuel h sd th' sn m1 = Some (hb, m') ∧
     b = act || lb || hb).
Proof.
  cbn [fsync_partition_subtree]. destruct (Z.ltb_spec th 1) as [Hth|Hth].
  { intros [= <- <-]. left. done. }
  intros Hrun. right. split; [done|].
  destruct (fsync_partition_h_cus m cus th) as [[ha hl] hh] eqn:Hh.
  destruct (fsync_partition_v_cus m cus th) as [[va vl] vh] eqn:Hv.
  apply partition_h_spec in Hh as (Hhl & Hhh & Hha).
  apply partition_v_spec in Hv as (Hvl & Hvh & Hva).
  assert (Hact_h : ha = true → hl ≠ [] ∧ hh ≠ []).
  { intros E. rewrite Hha in E. by apply bool_decide_eq_true in E. }
  assert (Hact_v : va = true → vl ≠ [] ∧ vh ≠ []).
  { intros E. rewrite Hva in E. by apply bool_decide_eq_true in E. }
  assert (Hact_hv : ha && va = true → (hl ≠ [] ∧ hh ≠ []) ∧ (vl ≠ [] ∧ vh ≠ [])).
  { intros [? ?]%andb_true_iff. auto. }
  clear Hha Hva.
  destruct node.
  4: {
    destruct (ha && va || negb ha && negb va) eqn:Hjoint; [destruct dir|destruct ha eqn:Eha].
    all: apply visit_halves_inv in Hrun as (lb & hb & m1 & Hl & Hr & ->).
    - exists (ha && va), y_axis, vl, vh, th, h_fs_dir, h_fs_node, lb, hb, m1.
      split_and!; first [ done | left; done | intros E; by destruct (Hact_hv E) ].
    - exists (ha && va), x_axis, hl, hh, th, v_fs_dir, v_fs_node, lb, hb, m1.
      split_and!; first [ done | left; done | intros E; by destruct (Hact_hv E) ].
    - exists (true && va), y_axis, vl, vh, th, h_fs_dir, h_fs_node, lb, hb, m1.
      split_and!; first [ done | left; done | intros E; by destruct (Hact_hv E) ].
    - exists (false && va), x_axis, hl, hh, th, v_fs_dir, v_fs_node, lb, hb, m1.
      split_and!; first [ done | left; done | intros E; by destruct (Hact_hv E) ]. }
  all: destruct dir; cbv beta iota in Hrun.
  all: apply visit_halves_inv in Hrun as (lb & hb & m1 & Hl & Hr & ->).
  all: [> exists ha, x_axis, hl, hh, (th / 2), h_fs_dir, hv_fs_node, lb, hb, m1
        | exists va, y_axis, vl, vh, (th / 2), v_fs_dir, hv_fs_node, lb, hb, m1
        | exists ha, x_axis, hl, hh, (th / 2), h_fs_dir, hv_fs_node, lb, hb, m1
        | exists va, y_axis, vl, vh, (th / 2), v_fs_dir, hv_fs_node, lb, hb, m1
        | exists ha, x_axis, hl, hh, (th / 2), h_fs_dir, hv_fs_node, lb, hb, m1
        | exists va, y_axis, vl, vh, (th / 2), v_fs_dir, hv_fs_node, lb, hb, m1 ].
  all: split_and!; try done; right; done.
Qed.

(** *** Termination: the fuel bound *)

Lemma fsync_partition_subtree_total fuel cus dir th node m :
  (subtree_measure th node < fuel)%nat →
  is_Some (fsync_partition_subtree fuel cus dir th node m).
Proof.
  revert cus dir th node m.
  induction fuel as [|fuel IH]; intros cus dir th node m Hfuel; [lia|].
  cbn [fsync_partition_subtree]. destruct (Z.ltb_spec th 1) as [Hth|Hth]; [done|].
  assert (Hsame : node = hv_fs_node → ∀ sn, sn ≠ hv_fs_node →
            (subtree_measure th sn < fuel)%nat).
  { intros -> sn Hsn. unfold subtree_measure in *.
    rewrite bool_decide_eq_false_2 by done. simpl in Hfuel. lia. }
  assert (Hhalf : node ≠ hv_fs_node →
            (subtree_measure (th / 2) hv_fs_node < fuel)%nat).
  { intros Hn. unfold subtree_measure in *. simpl.
    rewrite bool_decide_eq_false_2 in Hfuel by done.
    assert (2 * (th / 2) ≤ th) by (apply Z.mul_div_le; lia).
    assert (th / 2 < th) by (apply Z.div_lt; lia). lia. }
  destruct node.
  4: {
    destruct (fsync_partition_h_cus m cus th) as [[ha hl] hh].
    destruct (fsync_partition_v_cus m cus th) as [[va vl] vh].
    destruct (ha && va || negb ha && negb va); [destruct dir|destruct ha].
    all: apply visit_halves_is_Some; intros; by apply IH, Hsame. }
  all: destruct dir.
  all: match goal with
       | |- context [fsync_partition_h_cus ?m ?c ?t] =>
         destruct (fsync_partition_h_cus m c t) as [[a l] h]
       | |- context [fsync_partition_v_cus ?m ?c ?t] =>
         destruct (fsync_partition_v_cus m c t) as [[a l] h]
       end.
  all: apply visit_halves_is_Some; intros; by apply IH, Hhalf.
Qed.

(** ** What the engine leaves alone *)

Lemma halves_mem_notin l h dir node act ax th m i :
  i ∉ l → i ∉ h → halves_mem l h dir node act ax th m !! i = m !! i.
Proof.
  intros Hl Hh. unfold halves_mem, fsync_update_h_poss, fsync_update_v_poss,
    fsync_update_cus_req.
  destruct ax; simpl; by rewrite !for_each_cu_lookup_notin.
Qed.

Lemma halves_mem_length l h dir node act ax th m :
  length (halves_mem l h dir node act ax th m) = length m.
Proof.
  unfold halves_mem, fsync_update_h_poss, fsync_update_v_poss, fsync_update_cus_req.
  destruct ax; simpl; by rewrite !for_each_cu_length.
Qed.

(** The engine writes only through the pointers it is given. *)
Lemma subtree_frame fuel cus dir th node m b m' i :
  fsync_partition_subtree fuel cus dir th node m = Some (b, m') →
  i ∉ cus → m' !! i = m !! i.
Proof.
  revert cus dir th node m b m'.
  induction fuel as [|fuel IH]; intros cus dir th node m b m' Hrun Hi; [done|].
  apply subtree_unfold in Hrun
    as [(_ & _ & ->)|(_ & act & ax & l & h & th' & sd & sn & lb & hb & m1 &
                      Hl & Hh & _ & _ & Hrl & Hrh & _)]; [done|].
  assert (i ∉ l) by (rewrite Hl, list_elem_of_filter; tauto).
  assert (i ∉ h) by (rewrite Hh, list_elem_of_filter; tauto).
  rewrite (IH _ _ _ _ _ _ _ Hrh), (IH _ _ _ _ _ _ _ Hrl) by done.
  by apply halves_mem_notin.
Qed.

(** ** Relations that every write of the engine respects *)

Section engine_relation.
Context (R : relation fsync_cu_t) `{!PreOrder R}.
(** [writes_active = false] restricts the statement to runs that return [false];
    all their contributions are recorded with [node_active = false]. *)
Context (writes_active : bool).
Context (R_req : ∀ dir node act c,
            (writes_active = false → act = false) →
            R c (set_req c (update_req dir node act (fsync_req c)))).
Context (R_x : ∀ th c, R c (set_x_pos c (fst (fsync_update_pos (x_pos c) th)))).
Context (R_y : ∀ th c, R c (set_y_pos c (fst (fsync_update_pos (y_pos c) th)))).

Lemma halves_mem_rel l h dir node act ax th m :
  (writes_active = false → act = false) →
  Forall2 R m (halves_mem l h dir node act ax th m).
Proof using All.
  intros Hact. unfold halves_mem, fsync_update_h_poss, fsync_update_v_poss,
    fsync_update_cus_req.
  destruct ax; cbn [fst].
  all: repeat (apply for_each_cu_rel; [apply _|by auto|]).
  all: reflexivity.
Qed.

Lemma subtree_rel fuel cus dir th node m b m' :
  fsync_partition_subtree fuel cus dir th node m = Some (b, m') →
  (writes_active = false → b = false) →
  Forall2 R m m'.
Proof using All.
  revert cus dir th node m b m'.
  induction fuel as [|fuel IH]; intros cus dir th node m b m' Hrun Hb; [done|].
  apply subtree_unfold in Hrun
    as [(_ & _ & ->)|(_ & act & ax & l & h & th' & sd & sn & lb & hb & m1 &
                      _ & _ & _ & _ & Hrl & Hrh & ->)]; [reflexivity|].
  assert (writes_active = false → act = false ∧ lb = false ∧ hb = false)
    as Hflags.
  { intros E. specialize (Hb E). destruct act, lb, hb; done. }
  etrans; [apply (halves_mem_rel l h dir node act ax th m); intros E; apply Hflags, E|].
  etrans; [apply (IH _ _ _ _ _ _ _ Hrl); intros E; apply Hflags, E|].
  apply (IH _ _ _ _ _ _ _ Hrh); intros E; apply Hflags, E.
Qed.
End engine_relation.

(** The engine keeps the size of the memory. *)
Lemma subtree_length fuel cus dir th node m b m' :
  fsync_partition_subtree fuel cus dir th node m = Some (b, m') →
  length m' = length m.
Proof.
  intros Hrun. symmetry.
  assert (PreOrder (λ _ _ : fsync_cu_t, True)) by (by split).
  apply (Forall2_length (λ _ _, True)).
  by apply (subtree_rel _ true) with fuel cus dir th node b.
Qed.

(** ** One recorded contribution *)

Lemma update_req_aggr dir node act r :
  fs_req_aggr (update_req dir node act r)
  = Z.lor (wrap (Z.shiftl (fs_req_aggr r) 1)) (if act then 1 else 0).
Proof. unfold update_req. by destruct (_ && _). Qed.

(** An inactive node leaves a request with aggregate 0 as it is. *)
Lemma update_req_inactive dir node r :
  fs_req_aggr r = 0 → update_req dir node false r = r.
Proof.
  intros Hr. unfold update_req. rewrite andb_false_r, Hr.
  destruct r as [a i n]; simpl in *. by subst a.
Qed.

(** A request whose node is set keeps its node and its id. *)
Lemma update_req_sticky dir node act r :
  req_node r ≠ null_fs_node →
  req_node (update_req dir node act r) = req_node r ∧
  fs_req_id (update_req dir node act r) = fs_req_id r.
Proof.
  intros Hr. unfold update_req. by rewrite bool_decide_eq_false_2.
Qed.

Lemma update_req_shift_in dir node act r :
  fs_req_aggr (update_req dir node act r) = shift_in (fs_req_aggr r) act.
Proof. apply update_req_aggr. Qed.

(** A step at most doubles the aggregate and adds one. *)
Lemma shift_in_bound a bit K : 0 ≤ a < K → 0 ≤ shift_in a bit < 2 * K.
Proof.
  intros [H0 HK]. unfold shift_in, wrap.
  rewrite Z.shiftl_mul_pow2 by lia. change (2 ^ 1) with 2.
  set (w := (a * 2) mod 2 ^ 32).
  assert (0 ≤ w ≤ a * 2) as [Hw0 Hw].
  { split; [apply Z.mod_pos_bound; lia|apply Z.mod_le; lia]. }
  destruct bit.
  - pose proof (Z.add_lor_land w 1) as Hadd.
    assert (0 ≤ Z.land w 1) by (apply Z.land_nonneg; lia).
    assert (0 ≤ Z.lor w 1) by (apply Z.lor_nonneg; lia). lia.
  - rewrite Z.lor_0_r. lia.
Qed.

Lemma grown_by_refl n a : grown_by n a a.
Proof. exists []. split; [simpl; lia|done]. Qed.

Lemma grown_by_step n a bit a' :
  grown_by n (shift_in a bit) a' → grown_by (S n) a a'.
Proof. intros (bits & Hlen & ->). exists (bit :: bits). split; [simpl; lia|done]. Qed.

Lemma grown_by_mono n n' a a' : (n ≤ n')%nat → grown_by n a a' → grown_by n' a a'.
Proof. intros Hn (bits & Hlen & ->). exists bits. split; [lia|done]. Qed.

(** [n] steps from an aggregate below [K] end below [K * 2 ^ n]. *)
Lemma grown_by_bound n a a' K :
  grown_by n a a' → 0 ≤ a < K → 0 ≤ a' < K * 2 ^ Z.of_nat n.
Proof.
  intros (bits & Hlen & ->). revert n a K Hlen.
  induction bits as [|bit bits IH]; intros n a K Hlen Ha; simpl in *.
  - assert (1 ≤ 2 ^ Z.of_nat n) by (apply Z.pow_le_mono_r with (b := 0); lia). nia.
  - destruct n as [|n]; [lia|].
    destruct (IH n (shift_in a bit) (2 * K)) as [Hlo Hhi];
      [lia|by apply shift_in_bound|].
    split; [done|].
    replace (Z.of_nat (S n)) with (Z.succ (Z.of_nat n)) by lia.
    rewrite Z.pow_succ_r by lia. lia.
Qed.

(** ** The memory handed to the recursive calls *)

Lemma halves_mem_in_l l h dir node act ax th m i :
  NoDup l → i ∈ l → i ∉ h →
  halves_mem l h dir node act ax th m !! i
  = (λ c, set_req c (update_req dir node act (fsync_req c))) <$> m !! i.
Proof.
  intros Hnd Hl Hh. unfold halves_mem, fsync_update_h_poss, fsync_update_v_poss,
    fsync_update_cus_req.
  destruct ax; cbn [fst].
  all: rewrite !(for_each_cu_lookup_notin _ h) by done.
  all: by rewrite for_each_cu_lookup_in.
Qed.

Lemma halves_mem_in_h l h dir node act ax th m i :
  NoDup h → i ∉ l → i ∈ h →
  halves_mem l h dir node act ax th m !! i
  = (λ c, renorm ax th (set_req c (update_req dir node act (fsync_req c)))) <$> m !! i.
Proof.
  intros Hnd Hl Hh. unfold halves_mem, fsync_update_h_poss, fsync_update_v_poss,
    fsync_update_cus_req.
  destruct ax; cbn [fst].
  all: rewrite !for_each_cu_lookup_in by done.
  all: rewrite for_each_cu_lookup_notin by done.
  all: by destruct (m !! i).
Qed.

(** The memory handed to the recursive calls, at a CU of the subset. *)
Lemma halves_mem_filter cus dir node act ax th m p c :
  NoDup cus → p ∈ cus → m !! p = Some c →
  halves_mem (filter (λ q, pos_on ax (deref m q) < th) cus)
             (filter (λ q, ¬ pos_on ax (deref m q) < th) cus) dir node act ax th m !! p
  = Some (let c1 := set_req c (update_req dir node act (fsync_req c)) in
          if decide (pos_on ax c < th) then c1 else renorm ax th c1).
Proof.
  intros Hnd Hp Hc.
  destruct (filter_halves (λ q, pos_on ax (deref m q) < th) cus)
    as (_ & _ & Hdisj & Hnd').
  destruct (Hnd' Hnd) as [Hndl Hndh].
  assert (deref m p = c) as Hd by (unfold deref; by rewrite Hc).
  cbv zeta. destruct (decide (pos_on ax c < th)) as [Hlow|Hhigh].
  - assert (p ∈ filter (λ q, pos_on ax (deref m q) < th) cus) as Hl.
    { apply list_elem_of_filter. by rewrite Hd. }
    rewrite halves_mem_in_l by auto. by rewrite Hc.
  - assert (p ∈ filter (λ q, ¬ pos_on ax (deref m q) < th) cus) as Hh.
    { apply list_elem_of_filter. by rewrite Hd. }
    rewrite halves_mem_in_h; [by rewrite Hc|done| |done].
    intros Hl. by apply (Hdisj p Hl).
Qed.

(** ** Size of the aggregate *)

Lemma subtree_levels_step th node th' sn :
  1 ≤ th →
  (node = hv_fs_node ∧ th' = th ∧ sn ≠ hv_fs_node) ∨
  (node ≠ hv_fs_node ∧ th' = th / 2 ∧ sn = hv_fs_node) →
  (S (subtree_levels th' sn) ≤ subtree_levels th node)%nat.
Proof.
  intros Hth [(-> & -> & Hsn)|(Hn & -> & ->)]; unfold subtree_levels.
  - destruct (Z.ltb_spec th 1); [lia|].
    rewrite bool_decide_eq_false_2 by done. rewrite bool_decide_eq_true_2 by done. lia.
  - destruct (Z.ltb_spec th 1); [lia|].
    rewrite (bool_decide_eq_false_2 (node = _)) by done.
    rewrite bool_decide_eq_true_2 by done.
    destruct (Z.ltb_spec (th / 2) 1) as [Hsmall|Hbig]; [lia|].
    assert (2 ≤ th).
    { destruct (Z.le_gt_cases 2 th); [done|].
      assert (th = 1) as -> by lia. by vm_compute in Hbig. }
    assert (Z.log2 (th / 2) = Z.log2 th - 1) as ->.
    { pose proof (Z.log2_shiftr th 1) as Hlog.
      rewrite Z.shiftr_div_pow2 in Hlog by lia. change (2 ^ 1) with 2 in Hlog.
      pose proof (Z.log2_pos th). lia. }
    pose proof (Z.log2_pos th). lia.
Qed.

(** Below a node, a CU's aggregate takes at most [subtree_levels] steps: it
    is written once at every node that has the CU in its subset. *)
Lemma subtree_aggr_grown fuel cus dir th node m b m' i c :
  NoDup cus →
  fsync_partition_subtree fuel cus dir th node m = Some (b, m') →
  m !! i = Some c →
  ∃ c', m' !! i = Some c' ∧
        grown_by (subtree_levels th node)
                 (fs_req_aggr (fsync_req c)) (fs_req_aggr (fsync_req c')).
Proof.
  revert cus dir th node m b m' c.
  induction fuel as [|fuel IH]; intros cus dir th node m b m' c Hnd Hrun Hi; [done|].
  apply subtree_unfold in Hrun
    as [(_ & _ & ->)|(Hth & act & ax & l & h & th' & sd & sn & lb & hb & m1 &
                      Hl & Hh & _ & Hkind & Hrl & Hrh & _)].
  { exists c. split; [done|apply grown_by_refl]. }
  pose proof (subtree_levels_step th node th' sn Hth Hkind) as Hstep.
  destruct (filter_halves (λ p, pos_on ax (deref m p) < th) cus)
    as (Hlc & Hhc & Hdisj & Hnd').
  rewrite <- Hl, <- Hh in *. destruct (Hnd' Hnd) as [Hndl Hndh].
  destruct (decide (i ∈ l)) as [Hil|Hil]; [|destruct (decide (i ∈ h)) as [Hih|Hih]].
  - (* written once here, then only by the call on the low half *)
    pose proof (halves_mem_in_l l h dir node act ax th m i Hndl Hil (Hdisj i Hil)) as H0.
    rewrite Hi in H0. simpl in H0.
    destruct (IH _ _ _ _ _ _ _ _ Hndl Hrl H0) as (c1 & Hc1 & Hg1).
    exists c1. split.
    { by rewrite (subtree_frame _ _ _ _ _ _ _ _ i Hrh) by auto. }
    cbn [fsync_req set_req] in Hg1. rewrite update_req_shift_in in Hg1.
    eapply grown_by_mono; [exact Hstep|]. by apply grown_by_step with act.
  - (* written once here, then only by the call on the high half *)
    pose proof (halves_mem_in_h l h dir node act ax th m i Hndh Hil Hih) as H0.
    rewrite Hi in H0. simpl in H0.
    rewrite <- (subtree_frame _ _ _ _ _ _ _ _ i Hrl) in H0 by done.
    destruct (IH _ _ _ _ _ _ _ _ Hndh Hrh H0) as (c1 & Hc1 & Hg1).
    exists c1. split; [done|].
    assert (fs_req_aggr (fsync_req (renorm ax th
              (set_req c (update_req dir node act (fsync_req c)))))
            = shift_in (fs_req_aggr (fsync_req c)) act) as Hw.
    { destruct ax; cbn [renorm fsync_req set_req set_x_pos set_y_pos];
        apply update_req_shift_in. }
    rewrite Hw in Hg1.
    eapply grown_by_mono; [exact Hstep|]. by apply grown_by_step with act.
  - (* not written *)
    exists c. split; [|apply grown_by_refl].
    rewrite (subtree_frame _ _ _ _ _ _ _ _ i Hrh), (subtree_frame _ _ _ _ _ _ _ _ i Hrl) by done.
    by rewrite halves_mem_notin.
Qed.

(** ** CUs that share one position *)

Lemma filter_all (P : ptr → Prop) `{!∀ p, Decision (P p)} (cus : list ptr) :
  (∀ p, p ∈ cus → P p) → filter P cus = cus.
Proof.
  induction cus as [|p cus IH]; intros HP; [done|].
  rewrite filter_cons_True by (apply HP; left).
  f_equal. apply IH. intros q Hq. apply HP. by right.
Qed.

Lemma filter_none (P : ptr → Prop) `{!∀ p, Decision (P p)} (cus : list ptr) :
  (∀ p, p ∈ cus → ¬ P p) → filter P cus = [].
Proof.
  induction cus as [|p cus IH]; intros HP; [done|].
  rewrite filter_cons_False by (apply HP; left).
  apply IH. intros q Hq. apply HP. by right.
Qed.

Lemma same_pos_deref m cus x y ax p :
  same_pos m cus x y → p ∈ cus →
  pos_on ax (deref m p) = match ax with x_axis => x | y_axis => y end.
Proof.
  intros Hsp Hp. destruct (Hsp p Hp) as (c & Hc & Hx & Hy).
  unfold deref. rewrite Hc. by destruct ax.
Qed.

(** No node is active below a set of CUs that share one position (or below no
    CU at all): no axis ever splits it. *)
Lemma subtree_same_pos fuel cus dir th node m b m' x y :
  NoDup cus → same_pos m cus x y →
  fsync_partition_subtree fuel cus dir th node m = Some (b, m') →
  b = false.
Proof.
  revert cus dir th node m b m' x y.
  induction fuel as [|fuel IH]; intros cus dir th node m b m' x y Hnd Hsp Hrun; [done|].
  apply subtree_unfold in Hrun
    as [(_ & -> & _)|(Hth & act & ax & l & h & th' & sd & sn & lb & hb & m1 &
                      Hl & Hh & Hact & _ & Hrl & Hrh & ->)]; [done|].
  set (v := match ax with x_axis => x | y_axis => y end).
  assert (Hv : ∀ p, p ∈ cus → pos_on ax (deref m p) = v).
  { intros p Hp. by apply same_pos_deref with cus. }
  assert (Hnil : ∀ m0, same_pos m0 [] x y).
  { intros m0 p Hp. by apply elem_of_nil in Hp. }
  destruct (decide (v < th)) as [Hlow|Hhigh].
  - assert (l = cus) as El.
    { rewrite Hl. apply filter_all. intros p Hp. by rewrite Hv. }
    assert (h = []) as Eh.
    { rewrite Hh. apply filter_none. intros p Hp. rewrite Hv by done. tauto. }
    clear Hl Hh. subst l h.
    assert (act = false) as -> by (destruct act; [by destruct Hact|done]).
    rewrite (IH _ _ _ _ _ _ _ x y (NoDup_nil_2) (Hnil _) Hrh).
    rewrite orb_false_r. simpl.
    eapply (IH cus); [exact Hnd| |exact Hrl].
    instantiate (1 := y). instantiate (1 := x).
    intros p Hp. destruct (Hsp p Hp) as (c & Hc & Hx & Hy).
    rewrite halves_mem_in_l, Hc by (done || apply not_elem_of_nil).
    eexists. split; [done|]. done.
  - assert (l = []) as El.
    { rewrite Hl. apply filter_none. intros p Hp. by rewrite Hv. }
    assert (h = cus) as Eh.
    { rewrite Hh. apply filter_all. intros p Hp. by rewrite Hv. }
    clear Hl Hh. subst l h.
    assert (act = false) as -> by (destruct act; [by destruct Hact|done]).
    rewrite (IH _ _ _ _ _ _ _ x y (NoDup_nil_2) (Hnil _) Hrl). simpl.
    eapply (IH cus); [exact Hnd| |exact Hrh].
    instantiate (1 := match ax with x_axis => y | y_axis => y - th end).
    instantiate (1 := match ax with x_axis => x - th | y_axis => x end).
    intros p Hp. destruct (Hsp p Hp) as (c & Hc & Hx & Hy).
    rewrite (subtree_frame _ _ _ _ _ _ _ _ p Hrl) by apply not_elem_of_nil.
    rewrite halves_mem_in_h, Hc by (done || apply not_elem_of_nil).
    eexists. split; [done|].
    subst v. unfold fsync_update_pos.
    destruct ax; simpl; subst x y.
    all: destruct (Z.ltb_spec (x_pos c) th), (Z.ltb_spec (y_pos c) th); done || lia.
Qed.

(** A call on no CU returns [false] and leaves the memory as it is. *)
Lemma subtree_nil fuel dir th node m b m' :
  fsync_partition_subtree fuel [] dir th node m = Some (b, m') →
  b = false ∧ m' = m.
Proof.
  intros Hrun. split.
  - apply (subtree_same_pos _ _ _ _ _ _ _ _ 0 0 (NoDup_nil_2)) in Hrun; [done|].
    intros p Hp. by apply elem_of_nil in Hp.
  - apply list_eq. intros i.
    apply (subtree_frame _ _ _ _ _ _ _ _ i Hrun), not_elem_of_nil.
Qed.

(** ** Requests across a run of the engine *)

Global Instance req_kept_preorder : PreOrder req_kept.
Proof.
  split.
  - by intros c _.
  - intros c1 c2 c3 H12 H23 H0. unfold req_kept in *.
    rewrite H23; [by apply H12|]. by rewrite H12.
Qed.

Lemma subtree_false_keeps_reqs fuel cus dir th node m m' :
  fsync_partition_subtree fuel cus dir th node m = Some (false, m') →
  Forall2 req_kept m m'.
Proof.
  intros Hrun. apply (subtree_rel req_kept false) with fuel cus dir th node false;
    try done.
  intros d n act c Hact H0. rewrite Hact by done. simpl.
  by apply update_req_inactive.
Qed.

Global Instance node_kept_preorder : PreOrder node_kept.
Proof.
  split.
  - by intros c _.
  - intros c1 c2 c3 H12 H23 H0. unfold node_kept in *.
    destruct (H12 H0) as [Hn Hi]. destruct H23 as [Hn' Hi']; [congruence|].
    split; congruence.
Qed.

Lemma subtree_node_kept fuel cus dir th node m b m' :
  fsync_partition_subtree fuel cus dir th node m = Some (b, m') →
  Forall2 node_kept m m'.
Proof.
  intros Hrun. apply (subtree_rel node_kept true) with fuel cus dir th node b;
    try done.
  intros d n act c _ H0. simpl. by apply update_req_sticky.
Qed.

(** ** The hop walk of the two-CU path *)

Lemma update_pos_snd pos th : snd (fsync_update_pos pos th) = th / 2.
Proof. reflexivity. Qed.

(** More fuel than the threshold does not lengthen a walk. *)
Lemma axis_walk_fuel fuel fuel' p0 p1 th :
  0 ≤ th → (Z.to_nat th ≤ fuel)%nat → (Z.to_nat th ≤ fuel')%nat →
  axis_walk fuel p0 p1 th = axis_walk fuel' p0 p1 th.
Proof.
  revert fuel' p0 p1 th.
  induction fuel as [|fuel IH]; intros fuel' p0 p1 th Hth Hfuel Hfuel'.
  { assert (th = 0) as -> by lia. destruct fuel'; [done|].
    simpl. by rewrite andb_false_r. }
  destruct fuel' as [|fuel'].
  { assert (th = 0) as -> by lia. simpl. by rewrite andb_false_r. }
  simpl. destruct (Z.ltb_spec 0 th) as [Hpos|Hzero]; [|by rewrite andb_false_r].
  destruct (_ && _); [|done]. f_equal.
  assert (0 ≤ th / 2) by (apply Z.div_pos; lia).
  assert (th / 2 < th) by (apply Z.div_lt; lia).
  apply IH; lia.
Qed.

Lemma axis_steps_fuel fuel p0 p1 th :
  0 ≤ th → (Z.to_nat th ≤ fuel)%nat → axis_walk fuel p0 p1 th = axis_steps p0 p1 th.
Proof. intros. by apply axis_walk_fuel. Qed.

Lemma axis_steps_unfold p0 p1 th :
  0 ≤ th →
  axis_steps p0 p1 th
  = if fsync_same_subtree p0 p1 th && (0 <? th)
    then S (axis_steps (fst (fsync_update_pos p0 th)) (fst (fsync_update_pos p1 th)) (th / 2))
    else O.
Proof.
  intros Hth. destruct (Z.ltb_spec 0 th) as [Hpos|Hzero].
  - unfold axis_steps at 1. destruct (Z.to_nat th) as [|n] eqn:En; [lia|].
    cbn [axis_walk]. destruct (Z.ltb_spec 0 th); [|lia].
    destruct (_ && _); [|done]. f_equal.
    assert (0 ≤ th / 2) by (apply Z.div_pos; lia).
    assert (th / 2 < th) by (apply Z.div_lt; lia).
    apply axis_steps_fuel; lia.
  - rewrite andb_false_r. assert (th = 0) as -> by lia. done.
Qed.

Lemma wrap_small z : 0 ≤ z < 2 ^ 32 → wrap z = z.
Proof. apply Z.mod_small. Qed.

(** The loop of lines 211-222 exits, and [hops] has then been decremented
    once per level that each axis walked in lockstep with the other. *)
Lemma hop_loop_lockstep fuel s :
  0 ≤ x_th s → 0 ≤ y_th s → x_th s + y_th s ≤ hops s < 2 ^ 32 →
  (Z.to_nat (x_th s) < fuel)%nat →
  hops <$> hop_loop fuel s
  = Some (let sx := axis_steps (x_p0 s) (x_p1 s) (x_th s) in
          let sy := axis_steps (y_p0 s) (y_p1 s) (y_th s) in
          hops s - Z.of_nat (sx `min` S sy) - Z.of_nat (sy `min` S sx)).
Proof.
  revert s. induction fuel as [|fuel IH]; intros s Hx Hy Hh Hfuel; [lia|].
  cbn [hop_loop]. cbv zeta.
  rewrite (axis_steps_unfold (x_p0 s)), (axis_steps_unfold (y_p0 s)) by done.
  unfold hop_body.
  destruct (fsync_same_subtree (x_p0 s) (x_p1 s) (x_th s) && (0 <? x_th s)) eqn:Ex;
    cbn [hops x_th y_th x_p0 x_p1 y_p0 y_p1];
    (destruct (fsync_same_subtree (y_p0 s) (y_p1 s) (y_th s) && (0 <? y_th s)) eqn:Ey);
    cbn [hops x_th y_th x_p0 x_p1 y_p0 y_p1].
  - apply andb_true_iff in Ex as [_ Hx0%Z.ltb_lt], Ey as [_ Hy0%Z.ltb_lt].
    assert (0 ≤ x_th s / 2) by (apply Z.div_pos; lia).
    assert (x_th s / 2 < x_th s) by (apply Z.div_lt; lia).
    assert (0 ≤ y_th s / 2) by (apply Z.div_pos; lia).
    assert (y_th s / 2 < y_th s) by (apply Z.div_lt; lia).
    rewrite IH; cbn [hops x_th y_th x_p0 x_p1 y_p0 y_p1 fst snd fsync_update_pos];
      rewrite ?(wrap_small (hops s - 1)) by lia;
      rewrite ?(wrap_small (hops s - 1 - 1)) by lia; try lia.
    f_equal. cbv zeta. lia.
  - apply andb_true_iff in Ex as [_ Hx0%Z.ltb_lt].
    rewrite (wrap_small (hops s - 1)) by lia. simpl. f_equal. lia.
  - apply andb_true_iff in Ey as [_ Hy0%Z.ltb_lt].
    rewrite (wrap_small (hops s - 1)) by lia. simpl. f_equal. lia.
  - simpl. f_equal. lia.
Qed.

Lemma pair_hops_lockstep c0 c1 : pair_hops c0 c1 = Some (lockstep_hops c0 c1).
Proof.
  unfold pair_hops. rewrite hop_loop_lockstep; [done|..]; vm_compute; (lia || done).
Qed.

(** ** The two-CU path in closed form *)

Lemma abs_diff_nonneg x y : 0 ≤ abs_diff x y.
Proof. unfold abs_diff. destruct (Z.ltb_spec y x); lia. Qed.

Lemma abs_diff_0 x y : abs_diff x y = 0 ↔ x = y.
Proof. unfold abs_diff. destruct (Z.ltb_spec y x); lia. Qed.

Lemma pair_tag_dir x_dist y_dist d :
  fst (pair_tag x_dist y_dist d) = deciding_dir x_dist y_dist d.
Proof.
  unfold pair_tag, deciding_dir.
  destruct (Z.ltb_spec y_dist x_dist); [done|].
  destruct (Z.eqb_spec x_dist y_dist), (Z.ltb_spec x_dist y_dist); done || lia.
Qed.

Lemma axis_walk_le fuel p0 p1 th : (axis_walk fuel p0 p1 th ≤ fuel)%nat.
Proof.
  revert p0 p1 th. induction fuel as [|fuel IH]; intros p0 p1 th; simpl; [lia|].
  destruct (_ && _); [|lia]. specialize (IH (fst (fsync_update_pos p0 th))
    (fst (fsync_update_pos p1 th)) (th / 2)). simpl in IH. lia.
Qed.

Lemma lockstep_hops_range c0 c1 : 0 ≤ lockstep_hops c0 c1 ≤ FSYNC_N_LVL.
Proof.
  unfold lockstep_hops, axis_steps.
  pose proof (axis_walk_le (Z.to_nat (FSYNC_N_CU_X / 2)) (x_pos c0) (x_pos c1)
                           (FSYNC_N_CU_X / 2)) as Hx.
  pose proof (axis_walk_le (Z.to_nat (FSYNC_N_CU_Y / 2)) (y_pos c0) (y_pos c1)
                           (FSYNC_N_CU_Y / 2)) as Hy.
  change (Z.to_nat (FSYNC_N_CU_X / 2)) with 2%nat in *.
  change (Z.to_nat (FSYNC_N_CU_Y / 2)) with 2%nat in *.
  change FSYNC_N_LVL with 4. cbv zeta. lia.
Qed.

Lemma shiftl_hops_small h : 1 < h ≤ 4 → wrap (Z.shiftl 1 (h - 1)) = Z.shiftl 1 (h - 1).
Proof.
  intros Hh. assert (h = 2 ∨ h = 3 ∨ h = 4) as [->|[->| ->]] by lia; reflexivity.
Qed.

Lemma gen_pair_far c0 c1 d :
  let x_dist := abs_diff (x_pos c0) (x_pos c1) in
  let y_dist := abs_diff (y_pos c0) (y_pos c1) in
  1 < wrap (x_dist + y_dist) →
  fsync_gen_pair c0 c1 d
  = let hops := lockstep_hops c0 c1 in
    if 1 <? hops
    then let r := dir_req (Z.shiftl 1 (hops - 1)) (deciding_dir x_dist y_dist d) in
         Some (true, [set_req c0 r; set_req c1 r])
    else let tag := snd (pair_tag x_dist y_dist d) in
         Some (false, [set_req c0 (set_node (fsync_req c0) tag);
                       set_req c1 (set_node (fsync_req c1) tag)]).
Proof.
  intros x_dist y_dist Hdist. unfold fsync_gen_pair, pair_tagged.
  fold x_dist y_dist.
  destruct (Z.eqb_spec (wrap (x_dist + y_dist)) 0); [lia|].
  rewrite <- (pair_tag_dir x_dist y_dist d).
  destruct (pair_tag x_dist y_dist d) as [dir tag]. cbn [fst snd].
  destruct (Z.eqb_spec (wrap (x_dist + y_dist)) 1); [lia|].
  rewrite pair_hops_lockstep.
  change (lockstep_hops (set_req c0 _) (set_req c1 _)) with (lockstep_hops c0 c1).
  pose proof (lockstep_hops_range c0 c1) as Hr. change FSYNC_N_LVL with 4 in Hr.
  cbv zeta. destruct (Z.ltb_spec 1 (lockstep_hops c0 c1)); [|done].
  rewrite shiftl_hops_small by lia. by destruct dir.
Qed.

Lemma nbr_node_odd p1 p2 : fsync_nbr_node p1 p2 = Z.odd (p1 `min` p2).
Proof.
  assert (Hland : ∀ p, negb (Z.land p 1 =? 0) = Z.odd p).
  { intros p. change 1 with (Z.ones 1). rewrite Z.land_ones by lia.
    change (2 ^ 1) with 2. rewrite Zmod_odd. by destruct (Z.odd p). }
  unfold fsync_nbr_node. destruct (Z.ltb_spec p1 p2).
  - rewrite Z.min_l by lia. apply Hland.
  - rewrite Z.min_r by lia. apply Hland.
Qed.

Lemma gen_pair_near c0 c1 d :
  abs_diff (x_pos c0) (x_pos c1) + abs_diff (y_pos c0) (y_pos c1) = 1 →
  fsync_gen_pair c0 c1 d
  = Some (true, [set_req c0 (nbr_req c0 c1); set_req c1 (nbr_req c0 c1)]).
Proof.
  intros Hdist. unfold fsync_gen_pair, pair_tagged, nbr_req. rewrite Hdist.
  change (wrap 1 =? 0) with false. change (wrap 1 =? 1) with true. cbv iota.
  pose proof (abs_diff_nonneg (x_pos c0) (x_pos c1)).
  pose proof (abs_diff_nonneg (y_pos c0) (y_pos c1)).
  unfold pair_tag.
  destruct (Z.ltb_spec (abs_diff (y_pos c0) (y_pos c1)) (abs_diff (x_pos c0) (x_pos c1)));
    [|destruct (Z.eqb_spec (abs_diff (x_pos c0) (x_pos c1)) (abs_diff (y_pos c0) (y_pos c1)));
      [lia|]].
  all: cbn [nbr_id x_pos y_pos set_req]; rewrite nbr_node_odd.
  all: by destruct (Z.odd _).
Qed.

(** * Properties of the generator *)

(** ** Two CUs *)

Lemma gen_reqs_pair c0 c1 d :
  fsync_gen_reqs [c0; c1] d
  = fsync_gen_pair (set_req c0 default_req) (set_req c1 default_req) d.
Proof. reflexivity. Qed.

(** C5. Two CUs at Manhattan distance 1: the call succeeds and both CUs get
    the same request [nbr_req]: aggregate 1; on the horizontal axis id 2 if
    the smaller x is odd and id 0 otherwise; on the vertical axis id 3 if the
    smaller y is odd and id 1 otherwise. *)
Theorem neighbours_request c0 c1 d :
  abs_diff (x_pos c0) (x_pos c1) + abs_diff (y_pos c0) (y_pos c1) = 1 →
  fsync_gen_reqs [c0; c1] d
  = Some (true, [set_req c0 (nbr_req c0 c1); set_req c1 (nbr_req c0 c1)]).
Proof.
  intros Hdist. rewrite gen_reqs_pair, gen_pair_near; done.
Qed.

Lemma neighbours_request_witness :
  abs_diff 1 2 + abs_diff 0 0 = 1 ∧
  fsync_gen_reqs [cu 7 0 1; cu 9 0 2] v_fs_dir
  = Some (true, [mk_cu 7 0 1 (mk_req 1 2 h_fs_node); mk_cu 9 0 2 (mk_req 1 2 h_fs_node)]).
Proof.
  split; [reflexivity|].
  exact (neighbours_request (cu 7 0 1) (cu 9 0 2) v_fs_dir eq_refl).
Defined.

(** C9. [fsync_gen_reqs] returns false on degenerate input. *)
Theorem degenerate_input_fails cus d :
  degenerate cus → ∃ cus', fsync_gen_reqs cus d = Some (false, cus').
Proof.
  intros [cus0 Hlen|c0 c1 Hx Hy|c0 c1 h Hdist Hhops Hh].
  - destruct cus0 as [|c0 [|c1 cus0]]; simpl in Hlen; [by eexists..|lia].
  - rewrite gen_reqs_pair. unfold fsync_gen_pair. cbn [x_pos y_pos set_req].
    rewrite (proj2 (abs_diff_0 _ _) Hx), (proj2 (abs_diff_0 _ _) Hy).
    by eexists.
  - rewrite gen_reqs_pair, gen_pair_far by done. cbv zeta.
    rewrite pair_hops_lockstep in Hhops. injection Hhops as <-.
    change (lockstep_hops (set_req c0 _) (set_req c1 _)) with (lockstep_hops c0 c1).
    destruct (Z.ltb_spec 1 (lockstep_hops c0 c1)); [lia|]. by eexists.
Qed.

Lemma degenerate_input_fails_witness :
  degenerate [cu 0 4 4; cu 1 6 4] ∧
  ∃ cus', fsync_gen_reqs [cu 0 4 4; cu 1 6 4] h_fs_dir = Some (false, cus').
Proof.
  assert (degenerate [cu 0 4 4; cu 1 6 4]) as Hdeg.
  { apply degenerate_hops with 0; [reflexivity|reflexivity|discriminate]. }
  split; [exact Hdeg|].
  exact (degenerate_input_fails [cu 0 4 4; cu 1 6 4] h_fs_dir Hdeg).
Defined.

(** C2, as amended. Two CUs further apart than neighbours: the hop count is
    that of the lockstep walk [lockstep_hops] (the two axes share one loop,
    which ends after the first pass in which either axis does not step); the
    call fails iff this hop count is at most 1, and otherwise both CUs get
    aggregate [1 << (hops - 1)] and the id and node of the deciding axis. *)
Theorem pair_far_lockstep c0 c1 d :
  let x_dist := abs_diff (x_pos c0) (x_pos c1) in
  let y_dist := abs_diff (y_pos c0) (y_pos c1) in
  let hops := lockstep_hops c0 c1 in
  let r := dir_req (Z.shiftl 1 (hops - 1)) (deciding_dir x_dist y_dist d) in
  1 < wrap (x_dist + y_dist) →
  pair_hops c0 c1 = Some hops ∧
  ∃ cus', fsync_gen_reqs [c0; c1] d = Some (bool_decide (1 < hops), cus') ∧
          (1 < hops → cus' = [set_req c0 r; set_req c1 r]).
Proof.
  intros x_dist y_dist hops r Hdist. split; [apply pair_hops_lockstep|].
  rewrite gen_reqs_pair, gen_pair_far by done. cbv zeta.
  change (lockstep_hops (set_req c0 _) (set_req c1 _)) with hops.
  cbn [x_pos y_pos set_req]. fold x_dist y_dist.
  destruct (Z.ltb_spec 1 hops).
  - rewrite bool_decide_eq_true_2 by done. by eexists.
  - rewrite bool_decide_eq_false_2 by lia. eexists. split; [done|lia].
Qed.

Lemma pair_far_lockstep_witness :
  1 < wrap (abs_diff 0 0 + abs_diff 0 2) ∧
  pair_hops (cu 0 0 0) (cu 1 2 0) = Some 3 ∧
  ∃ cus', fsync_gen_reqs [cu 0 0 0; cu 1 2 0] h_fs_dir = Some (true, cus') ∧
          (1 < 3 → cus' = [mk_cu 0 0 0 (mk_req 4 1 v_fs_node);
                           mk_cu 1 2 0 (mk_req 4 1 v_fs_node)]).
Proof.
  split; [reflexivity|].
  exact (pair_far_lockstep (cu 0 0 0) (cu 1 2 0) h_fs_dir eq_refl).
Defined.

(** C2 as stated fails at the CUs (x, y) = (0, 0) and (0, 2): walked on its
    own, the x axis takes two steps and the y axis none, so the hop count
    would be 2 and the aggregate [1 << 1]; the loop of the code ends after
    its first pass, with hop count 3 and aggregate [1 << 2]. *)
Lemma independent_walk_counterexample :
  let c0 := cu 0 0 0 in
  let c1 := cu 1 2 0 in
  let hops := independent_hops c0 c1 in
  let r := dir_req (Z.shiftl 1 (hops - 1)) (deciding_dir 0 2 h_fs_dir) in
  1 < abs_diff (x_pos c0) (x_pos c1) + abs_diff (y_pos c0) (y_pos c1) ∧
  hops = 2 ∧
  pair_hops c0 c1 = Some 3 ∧
  ¬ ∃ cus', fsync_gen_reqs [c0; c1] h_fs_dir = Some (bool_decide (1 < hops), cus') ∧
            (1 < hops → cus' = [set_req c0 r; set_req c1 r]).
Proof.
  split_and!; [reflexivity..|].
  intros (cus' & Hrun & Hcus). specialize (Hcus eq_refl). subst cus'.
  vm_compute in Hrun. discriminate.
Qed.

(** C8, as amended. In the two-CU branch for CUs further apart than
    neighbours, a successful call assigns the id and node of the axis with the
    larger distance, and on a tie those of [default_dir]. *)
Theorem pair_far_deciding_axis c0 c1 d cus' :
  let x_dist := abs_diff (x_pos c0) (x_pos c1) in
  let y_dist := abs_diff (y_pos c0) (y_pos c1) in
  1 < wrap (x_dist + y_dist) →
  fsync_gen_reqs [c0; c1] d = Some (true, cus') →
  Forall (λ c,
    (y_dist < x_dist →
       fs_req_id (fsync_req c) = 0 ∧ req_node (fsync_req c) = h_fs_node) ∧
    (x_dist < y_dist →
       fs_req_id (fsync_req c) = 1 ∧ req_node (fsync_req c) = v_fs_node) ∧
    (x_dist = y_dist →
       fsync_req c = dir_req (fs_req_aggr (fsync_req c)) d)) cus'.
Proof.
  intros x_dist y_dist Hdist Hrun.
  rewrite gen_reqs_pair, gen_pair_far in Hrun by done. cbv zeta in Hrun.
  cbn [x_pos y_pos set_req] in Hrun. fold x_dist y_dist in Hrun.
  destruct (1 <? _); [|done]. injection Hrun as <-.
  unfold deciding_dir.
  repeat constructor; cbn [fsync_req set_req]; try lia.
  all: destruct (Z.ltb_spec y_dist x_dist), (Z.ltb_spec x_dist y_dist);
    try lia; try done; try (by destruct d).
Qed.

Lemma pair_far_deciding_axis_witness :
  1 < wrap (abs_diff 0 1 + abs_diff 0 1) ∧
  fsync_gen_reqs [cu 0 0 0; cu 1 1 1] v_fs_dir
  = Some (true, [mk_cu 0 0 0 (mk_req 2 1 v_fs_node); mk_cu 1 1 1 (mk_req 2 1 v_fs_node)]) ∧
  Forall (λ c,
    (abs_diff 0 1 < abs_diff 0 1 →
       fs_req_id (fsync_req c) = 0 ∧ req_node (fsync_req c) = h_fs_node) ∧
    (abs_diff 0 1 < abs_diff 0 1 →
       fs_req_id (fsync_req c) = 1 ∧ req_node (fsync_req c) = v_fs_node) ∧
    (abs_diff 0 1 = abs_diff 0 1 →
       fsync_req c = dir_req (fs_req_aggr (fsync_req c)) v_fs_dir))
    [mk_cu 0 0 0 (mk_req 2 1 v_fs_node); mk_cu 1 1 1 (mk_req 2 1 v_fs_node)].
Proof.
  split; [reflexivity|]. split; [reflexivity|].
  exact (pair_far_deciding_axis (cu 0 0 0) (cu 1 1 1) v_fs_dir _ eq_refl eq_refl).
Defined.

(** C8 as stated fails at the diagonal neighbours (0, 0) and (1, 1): the two
    distances are equal, the id and node are assigned in this branch, and
    they follow [default_dir]. *)
Lemma tie_counterexample :
  let c0 := cu 0 0 0 in
  let c1 := cu 1 1 1 in
  1 < abs_diff (x_pos c0) (x_pos c1) + abs_diff (y_pos c0) (y_pos c1) ∧
  abs_diff (x_pos c0) (x_pos c1) = abs_diff (y_pos c0) (y_pos c1) ∧
  fsync_gen_reqs [c0; c1] h_fs_dir
  = Some (true, [set_req c0 (mk_req 2 0 h_fs_node); set_req c1 (mk_req 2 0 h_fs_node)]) ∧
  fsync_gen_reqs [c0; c1] v_fs_dir
  = Some (true, [set_req c0 (mk_req 2 1 v_fs_node); set_req c1 (mk_req 2 1 v_fs_node)]).
Proof. split_and!; reflexivity. Qed.

(** ** Three or more CUs *)

Lemma gen_reqs_many cus d :
  (3 ≤ length cus)%nat →
  fsync_gen_reqs cus d
  = match fsync_partition_subtree subtree_fuel (seq 0 (length (fsync_init_reqs cus))) d
            FSYNC_DEFAULT_TH hv_fs_node (fsync_init_reqs cus) with
    | None => None
    | Some (generated_reqs, temp_cus) =>
      Some (generated_reqs, copy_back (fsync_init_reqs cus) temp_cus)
    end.
Proof.
  intros Hlen. destruct cus as [|c0 [|c1 [|c2 cus]]]; simpl in Hlen; try lia.
  reflexivity.
Qed.

Lemma gen_reqs_many_inv cus d b cus' :
  (3 ≤ length cus)%nat →
  fsync_gen_reqs cus d = Some (b, cus') →
  ∃ temp_cus,
    fsync_partition_subtree subtree_fuel (seq 0 (length (fsync_init_reqs cus))) d
      FSYNC_DEFAULT_TH hv_fs_node (fsync_init_reqs cus) = Some (b, temp_cus) ∧
    cus' = copy_back (fsync_init_reqs cus) temp_cus.
Proof.
  intros Hlen. rewrite gen_reqs_many by done.
  destruct (fsync_partition_subtree _ _ _ _ _ _) as [[g t]|]; [|done].
  intros [= <- <-]. by exists t.
Qed.

Lemma init_reqs_aggr cus :
  Forall (λ c, fs_req_aggr (fsync_req c) = 0) (fsync_init_reqs cus).
Proof. unfold fsync_init_reqs. rewrite Forall_fmap. by apply Forall_true. Qed.

(** Copying back requests that were kept changes nothing. *)
Lemma copy_back_kept cus temp_cus :
  Forall2 req_kept cus temp_cus →
  Forall (λ c, fs_req_aggr (fsync_req c) = 0) cus →
  copy_back cus temp_cus = cus.
Proof.
  unfold copy_back. induction 1 as [|c t cus temp_cus Hct _ IH]; intros Hz; [done|].
  apply Forall_cons in Hz as [Hc Hz]. simpl. rewrite IH by done.
  rewrite (Hct Hc). by destruct c.
Qed.

(** On three or more CUs, a call that returns false hands back the array as
    [fsync_init_reqs] left it. *)
Lemma gen_reqs_many_false cus d cus' :
  (3 ≤ length cus)%nat →
  fsync_gen_reqs cus d = Some (false, cus') →
  cus' = fsync_init_reqs cus.
Proof.
  intros Hlen Hrun.
  apply gen_reqs_many_inv in Hrun as (t & Hrun & ->); [|done].
  apply copy_back_kept; [|apply init_reqs_aggr].
  by apply subtree_false_keeps_reqs in Hrun.
Qed.

(** ** Termination of the entry point *)

Lemma hop_loop_total c0 c1 : is_Some (hop_loop hop_fuel (hop_init c0 c1)).
Proof.
  pose proof (pair_hops_lockstep c0 c1) as H. unfold pair_hops in H.
  destruct (hop_loop hop_fuel (hop_init c0 c1)); [by eexists|done].
Qed.

Lemma fsync_gen_pair_total c0 c1 d : is_Some (fsync_gen_pair c0 c1 d).
Proof.
  unfold fsync_gen_pair. destruct (_ =? 0); [done|].
  destruct (pair_tagged c0 c1 d) as [[dir c0'] c1'].
  destruct (_ =? 1); [done|]. rewrite pair_hops_lockstep.
  destruct (1 <? _); done.
Qed.

Theorem fsync_gen_reqs_total cus d : is_Some (fsync_gen_reqs cus d).
Proof.
  destruct cus as [|c0 [|c1 [|c2 cus]]]; [done|done|apply fsync_gen_pair_total|].
  rewrite gen_reqs_many by (simpl; lia).
  destruct (fsync_partition_subtree_total subtree_fuel
              (seq 0 (length (fsync_init_reqs (c0 :: c1 :: c2 :: cus)))) d
              FSYNC_DEFAULT_TH hv_fs_node (fsync_init_reqs (c0 :: c1 :: c2 :: cus)))
    as [[g t] ->]; [|done].
  vm_compute. lia.
Qed.

(** ** Frame: identity and position *)

Lemma copy_back_same_place cus temp_cus :
  length temp_cus = length cus → Forall2 same_place cus (copy_back cus temp_cus).
Proof.
  unfold copy_back. revert temp_cus.
  induction cus as [|c cus IH]; intros [|t temp_cus] Hlen; simpl in *; try done.
  constructor; [done|]. apply IH. lia.
Qed.

Lemma init_reqs_same_place cus : Forall2 same_place cus (fsync_init_reqs cus).
Proof. induction cus; simpl; by constructor. Qed.

Lemma gen_pair_same_place c0 c1 d b cus' :
  fsync_gen_pair c0 c1 d = Some (b, cus') → Forall2 same_place [c0; c1] cus'.
Proof.
  unfold fsync_gen_pair, pair_tagged. destruct (_ =? 0).
  { intros [= <- <-]. by repeat constructor. }
  destruct (pair_tag _ _ d) as [dir tag]. destruct (_ =? 1).
  { intros [= <- <-]. by repeat constructor. }
  destruct (pair_hops _ _) as [h|]; [|done].
  destruct (1 <? h); intros [= <- <-]; destruct dir; by repeat constructor.
Qed.

Global Instance same_place_preorder : PreOrder same_place.
Proof.
  split; [done|]. intros c1 c2 c3 (?&?&?) (?&?&?). unfold same_place. split_and!; congruence.
Qed.

(** C10. Every call returns, and leaves [cu_id], [x_pos] and [y_pos] of every
    CU of the caller as they were, whatever flag it returns. *)
Theorem positions_unchanged cus d :
  ∃ b cus', fsync_gen_reqs cus d = Some (b, cus') ∧ Forall2 same_place cus cus'.
Proof.
  destruct (fsync_gen_reqs_total cus d) as [[b cus'] Hrun]. exists b, cus'.
  split; [done|].
  destruct cus as [|c0 [|c1 [|c2 cus]]].
  - injection Hrun as <- <-. constructor.
  - injection Hrun as <- <-. by repeat constructor.
  - rewrite gen_reqs_pair in Hrun. apply gen_pair_same_place in Hrun.
    etrans; [|exact Hrun]. by repeat constructor.
  - apply gen_reqs_many_inv in Hrun as (t & Hrun & ->); [|simpl; lia].
    etrans; [apply init_reqs_same_place|].
    apply copy_back_same_place. by apply subtree_length in Hrun.
Qed.

(** ** Failure *)

Lemma in_grid_no_hop_failure cus d :
  Forall in_grid cus → hop_failure_node cus d = None.
Proof.
  destruct cus as [|c0 [|c1 [|c2 cus]]]; try done.
  intros [[Hx0 Hy0] [[Hx1 Hy1] _]%Forall_cons]%Forall_cons.
  destruct c0 as [i0 y0 x0 r0], c1 as [i1 y1 x1 r1].
  unfold hop_failure_node. cbn [x_pos y_pos] in *.
  change FSYNC_N_CU_X with 4 in *. change FSYNC_N_CU_Y with 4 in *.
  assert (x0 = 0 ∨ x0 = 1 ∨ x0 = 2 ∨ x0 = 3) as Hx0' by lia.
  assert (x1 = 0 ∨ x1 = 1 ∨ x1 = 2 ∨ x1 = 3) as Hx1' by lia.
  assert (y0 = 0 ∨ y0 = 1 ∨ y0 = 2 ∨ y0 = 3) as Hy0' by lia.
  assert (y1 = 0 ∨ y1 = 1 ∨ y1 = 2 ∨ y1 = 3) as Hy1' by lia.
  clear Hx0 Hx1 Hy0 Hy1.
  destruct Hx0' as [->|[->|[->| ->]]], Hx1' as [->|[->|[->| ->]]],
           Hy0' as [->|[->|[->| ->]]], Hy1' as [->|[->|[->| ->]]].
  all: reflexivity.
Qed.

(** C1, as amended. When [fsync_gen_reqs] returns false, every CU of the
    caller ends with aggregate 0 and id 0, and with node None unless the call
    is the two-CU one that fails on its hop count: there both CUs keep the
    node written by the distance comparison. CUs inside the grid never fail
    on the hop count, so their requests are at the reset defaults. *)
Theorem failed_call_requests cus d cus' :
  fsync_gen_reqs cus d = Some (false, cus') →
  cus' = (λ c, set_req c (mk_req 0 0 (default null_fs_node (hop_failure_node cus d))))
         <$> cus ∧
  (Forall in_grid cus → hop_failure_node cus d = None ∧ cus' = fsync_init_reqs cus).
Proof.
  intros Hrun.
  assert (cus' = (λ c, set_req c (mk_req 0 0 (default null_fs_node
                                                  (hop_failure_node cus d)))) <$> cus)
    as Hcus'.
  { destruct cus as [|c0 [|c1 [|c2 cus]]].
    - by injection Hrun as <-.
    - by injection Hrun as <-.
    - rewrite gen_reqs_pair in Hrun. unfold hop_failure_node.
      set (x_dist := abs_diff (x_pos c0) (x_pos c1)).
      set (y_dist := abs_diff (y_pos c0) (y_pos c1)).
      destruct (Z.ltb_spec 1 (wrap (x_dist + y_dist))) as [Hfar|Hnear].
      + rewrite gen_pair_far in Hrun by done. cbv zeta in Hrun.
        change (lockstep_hops (set_req c0 _) (set_req c1 _))
          with (lockstep_hops c0 c1) in Hrun.
        destruct (Z.ltb_spec 1 (lockstep_hops c0 c1)); [done|].
        destruct (Z.leb_spec (lockstep_hops c0 c1) 1); [|lia].
        by injection Hrun as <-.
      + unfold fsync_gen_pair in Hrun. cbn [x_pos y_pos set_req] in Hrun.
        fold x_dist y_dist in Hrun.
        destruct (Z.eqb_spec (wrap (x_dist + y_dist)) 0).
        { by injection Hrun as <-. }
        destruct (pair_tagged _ _ d) as [[dir c0'] c1'].
        destruct (Z.eqb_spec (wrap (x_dist + y_dist)) 1); [done|].
        pose proof (Z.mod_pos_bound (x_dist + y_dist) (2 ^ 32)). unfold wrap in *. lia.
    - apply gen_reqs_many_false in Hrun; [|simpl; lia]. by subst cus'. }
  split; [done|]. intros Hgrid.
  pose proof (in_grid_no_hop_failure cus d Hgrid) as Hnone.
  split; [done|]. by rewrite Hcus', Hnone.
Qed.

Lemma failed_call_requests_witness :
  fsync_gen_reqs [cu 0 1 1; cu 1 1 1; cu 2 1 1] h_fs_dir
  = Some (false, [cu 0 1 1; cu 1 1 1; cu 2 1 1]) ∧
  [cu 0 1 1; cu 1 1 1; cu 2 1 1]
  = (λ c, set_req c (mk_req 0 0 null_fs_node)) <$> [cu 0 1 1; cu 1 1 1; cu 2 1 1] ∧
  (Forall in_grid [cu 0 1 1; cu 1 1 1; cu 2 1 1] →
   hop_failure_node [cu 0 1 1; cu 1 1 1; cu 2 1 1] h_fs_dir = None ∧
   [cu 0 1 1; cu 1 1 1; cu 2 1 1] = fsync_init_reqs [cu 0 1 1; cu 1 1 1; cu 2 1 1]).
Proof.
  assert (fsync_gen_reqs [cu 0 1 1; cu 1 1 1; cu 2 1 1] h_fs_dir
          = Some (false, [cu 0 1 1; cu 1 1 1; cu 2 1 1])) as Hrun
    by (vm_compute; reflexivity).
  split; [exact Hrun|].
  exact (failed_call_requests [cu 0 1 1; cu 1 1 1; cu 2 1 1] h_fs_dir _ Hrun).
Defined.

(** C1 as stated fails at the CUs (x, y) = (4, 4) and (4, 6): the hop count
    reaches 0, the call returns false, and both requests keep the node
    Vertical that was written before the hop walk. *)
Lemma failed_call_counterexample :
  fsync_gen_reqs [cu 0 4 4; cu 1 6 4] h_fs_dir
  = Some (false, [mk_cu 0 4 4 (mk_req 0 0 v_fs_node); mk_cu 1 6 4 (mk_req 0 0 v_fs_node)]) ∧
  mk_req 0 0 v_fs_node ≠ default_req.
Proof. split; [reflexivity|discriminate]. Qed.

(** ** Size of the final aggregate *)

Lemma popcount_small z : 0 ≤ z < 2 ^ 4 → (popcount z ≤ 4)%nat.
Proof.
  intros Hz. assert (∃ n : nat, z = Z.of_nat n ∧ (n < 16)%nat) as (n & -> & Hn).
  { exists (Z.to_nat z). lia. }
  do 16 (destruct n as [|n]; [vm_compute; lia|]). lia.
Qed.

Lemma grown_by_bits bits a :
  (length bits ≤ Z.to_nat FSYNC_N_LVL)%nat → a = foldl shift_in 0 bits →
  grown_by (Z.to_nat FSYNC_N_LVL) 0 a.
Proof. intros Hlen Ha. by exists bits. Qed.

Local Ltac each_cu := repeat first [apply Forall_nil_2 | apply Forall_cons_2].

Lemma gen_pair_aggr c0 c1 d b cus' :
  fs_req_aggr (fsync_req c0) = 0 → fs_req_aggr (fsync_req c1) = 0 →
  fsync_gen_pair c0 c1 d = Some (b, cus') → Forall aggr_grown cus'.
Proof.
  intros H0 H1. unfold fsync_gen_pair, pair_tagged, aggr_grown.
  destruct (_ =? 0).
  { intros [= <- <-]. each_cu; cbn [fsync_req]; rewrite ?H0, ?H1;
      apply grown_by_refl. }
  destruct (pair_tag _ _ d) as [dir tag]. destruct (_ =? 1).
  { intros [= <- <-].
    each_cu; (apply (grown_by_bits [true]); [vm_compute; lia|vm_compute; reflexivity]). }
  rewrite pair_hops_lockstep.
  change (lockstep_hops (set_req c0 _) (set_req c1 _)) with (lockstep_hops c0 c1).
  pose proof (lockstep_hops_range c0 c1) as Hr. change FSYNC_N_LVL with 4 in Hr.
  destruct (Z.ltb_spec 1 (lockstep_hops c0 c1)) as [Hh|Hh]; intros [= <- <-].
  - assert (lockstep_hops c0 c1 = 2 ∨ lockstep_hops c0 c1 = 3 ∨ lockstep_hops c0 c1 = 4)
      as [->|[->| ->]] by lia.
    all: destruct dir; each_cu.
    all: first
      [ apply (grown_by_bits [true; false]); [vm_compute; lia|vm_compute; reflexivity]
      | apply (grown_by_bits [true; false; false]); [vm_compute; lia|vm_compute; reflexivity]
      | apply (grown_by_bits [true; false; false; false]);
        [vm_compute; lia|vm_compute; reflexivity] ].
  - each_cu; cbn [fsync_req set_req set_node fs_req_aggr];
      rewrite ?H0, ?H1; apply grown_by_refl.
Qed.

Lemma gen_reqs_aggr cus d b cus' :
  fsync_gen_reqs cus d = Some (b, cus') → Forall aggr_grown cus'.
Proof.
  intros Hrun. destruct cus as [|c0 [|c1 [|c2 cus]]].
  - injection Hrun as <- <-. each_cu.
  - injection Hrun as <- <-. each_cu. apply grown_by_refl.
  - rewrite gen_reqs_pair in Hrun. by apply gen_pair_aggr in Hrun.
  - apply gen_reqs_many_inv in Hrun as (t & Hrun & ->); [|simpl; lia].
    set (cus0 := c0 :: c1 :: c2 :: cus) in *.
    apply Forall_lookup. intros i c' Hi.
    apply lookup_zip_with_Some in Hi as (c & ct & -> & Hc & Hct).
    pose proof (Forall_lookup_1 _ _ _ _ (init_reqs_aggr cus0) Hc) as Hz.
    cbv beta in Hz.
    destruct (subtree_aggr_grown _ _ _ _ _ _ _ _ i c (NoDup_seq _ _) Hrun Hc)
      as (ct' & Hct' & Hg).
    rewrite Hct in Hct'. injection Hct' as <-.
    unfold aggr_grown. cbn [fsync_req set_req]. by rewrite Hz in Hg.
Qed.

(** C6. After any call, successful or not, every CU's aggregate is the
    result of at most [FSYNC_N_LVL] left-shift-and-set-low-bit steps from 0;
    so it is below [2 ^ FSYNC_N_LVL] and has at most [FSYNC_N_LVL] set bits. *)
Theorem aggregate_bounded cus d b cus' :
  fsync_gen_reqs cus d = Some (b, cus') →
  Forall (λ c, grown_by (Z.to_nat FSYNC_N_LVL) 0 (fs_req_aggr (fsync_req c)) ∧
               0 ≤ fs_req_aggr (fsync_req c) < 2 ^ FSYNC_N_LVL ∧
               (popcount (fs_req_aggr (fsync_req c)) ≤ Z.to_nat FSYNC_N_LVL)%nat) cus'.
Proof.
  intros Hrun. apply gen_reqs_aggr in Hrun.
  eapply Forall_impl; [exact Hrun|]. intros c Hc. split; [exact Hc|].
  apply grown_by_bound with (K := 1) in Hc; [|lia].
  change (1 * 2 ^ Z.of_nat (Z.to_nat FSYNC_N_LVL)) with (2 ^ FSYNC_N_LVL) in Hc.
  split; [exact Hc|]. by apply popcount_small.
Qed.

Lemma aggregate_bounded_witness :
  fsync_gen_reqs test_cus h_fs_dir
  = Some (true,
          [mk_cu 0 0 0 (mk_req 14 0 hv_fs_node); mk_cu 5 1 1 (mk_req 14 0 hv_fs_node);
           mk_cu 2 0 2 (mk_req 13 0 hv_fs_node); mk_cu 3 0 3 (mk_req 13 0 hv_fs_node);
           mk_cu 8 2 0 (mk_req 12 0 hv_fs_node); mk_cu 10 2 2 (mk_req 15 0 hv_fs_node);
           mk_cu 11 2 3 (mk_req 15 0 hv_fs_node); mk_cu 15 3 3 (mk_req 14 0 hv_fs_node)]) ∧
  Forall (λ c, grown_by (Z.to_nat FSYNC_N_LVL) 0 (fs_req_aggr (fsync_req c)) ∧
               0 ≤ fs_req_aggr (fsync_req c) < 2 ^ FSYNC_N_LVL ∧
               (popcount (fs_req_aggr (fsync_req c)) ≤ Z.to_nat FSYNC_N_LVL)%nat)
         [mk_cu 0 0 0 (mk_req 14 0 hv_fs_node); mk_cu 5 1 1 (mk_req 14 0 hv_fs_node);
          mk_cu 2 0 2 (mk_req 13 0 hv_fs_node); mk_cu 3 0 3 (mk_req 13 0 hv_fs_node);
          mk_cu 8 2 0 (mk_req 12 0 hv_fs_node); mk_cu 10 2 2 (mk_req 15 0 hv_fs_node);
          mk_cu 11 2 3 (mk_req 15 0 hv_fs_node); mk_cu 15 3 3 (mk_req 14 0 hv_fs_node)].
Proof.
  assert (fsync_gen_reqs test_cus h_fs_dir
          = Some (true,
                  [mk_cu 0 0 0 (mk_req 14 0 hv_fs_node); mk_cu 5 1 1 (mk_req 14 0 hv_fs_node);
                   mk_cu 2 0 2 (mk_req 13 0 hv_fs_node); mk_cu 3 0 3 (mk_req 13 0 hv_fs_node);
                   mk_cu 8 2 0 (mk_req 12 0 hv_fs_node); mk_cu 10 2 2 (mk_req 15 0 hv_fs_node);
                   mk_cu 11 2 3 (mk_req 15 0 hv_fs_node); mk_cu 15 3 3 (mk_req 14 0 hv_fs_node)]))
    as Hrun by (vm_compute; reflexivity).
  split; [exact Hrun|].
  exact (aggregate_bounded test_cus h_fs_dir _ _ Hrun).
Defined.

(** ** One shared position *)

(** C7. Three or more CUs that all occupy one position: the call returns
    false and hands back every request at the reset defaults, so every
    aggregate is 0. *)
Theorem same_position_fails cus d x y :
  (3 ≤ length cus)%nat →
  Forall (λ c, x_pos c = x ∧ y_pos c = y) cus →
  fsync_gen_reqs cus d = Some (false, fsync_init_reqs cus) ∧
  Forall (λ c, fs_req_aggr (fsync_req c) = 0) (fsync_init_reqs cus).
Proof.
  intros Hlen Hpos. split; [|apply init_reqs_aggr].
  destruct (fsync_gen_reqs_total cus d) as [[b cus'] Hrun].
  assert (b = false) as ->.
  { apply gen_reqs_many_inv in Hrun as (t & Hrun & _); [|done].
    apply (subtree_same_pos _ _ _ _ _ _ _ _ x y (NoDup_seq _ _)) in Hrun; [done|].
    intros p Hp. apply elem_of_seq in Hp as [_ Hp]. simpl in Hp.
    unfold fsync_init_reqs in *. rewrite length_fmap in Hp.
    destruct (lookup_lt_is_Some_2 cus p Hp) as [c Hc].
    exists (set_req c default_req). rewrite list_lookup_fmap, Hc. split; [done|].
    by apply (Forall_lookup_1 _ _ _ _ Hpos Hc). }
  rewrite Hrun. by rewrite (gen_reqs_many_false _ _ _ Hlen Hrun).
Qed.

Lemma same_position_fails_witness :
  (3 ≤ length [cu 4 3 2; cu 5 3 2; cu 6 3 2; cu 7 3 2])%nat ∧
  Forall (λ c, x_pos c = 2 ∧ y_pos c = 3) [cu 4 3 2; cu 5 3 2; cu 6 3 2; cu 7 3 2] ∧
  fsync_gen_reqs [cu 4 3 2; cu 5 3 2; cu 6 3 2; cu 7 3 2] v_fs_dir
  = Some (false, fsync_init_reqs [cu 4 3 2; cu 5 3 2; cu 6 3 2; cu 7 3 2]) ∧
  Forall (λ c, fs_req_aggr (fsync_req c) = 0)
         (fsync_init_reqs [cu 4 3 2; cu 5 3 2; cu 6 3 2; cu 7 3 2]).
Proof.
  assert (3 ≤ length [cu 4 3 2; cu 5 3 2; cu 6 3 2; cu 7 3 2])%nat as Hlen
    by (simpl; lia).
  assert (Forall (λ c, x_pos c = 2 ∧ y_pos c = 3)
                 [cu 4 3 2; cu 5 3 2; cu 6 3 2; cu 7 3 2]) as Hpos
    by (repeat constructor).
  split; [exact Hlen|]. split; [exact Hpos|].
  exact (same_position_fails _ v_fs_dir 2 3 Hlen Hpos).
Defined.

(** ** Recording a contribution *)

(** The loop body of [fsync_update_cus_req] writes a request whose node is
    None as [recorded] describes. *)
Lemma update_req_none dir node act r :
  req_node r = null_fs_node → update_req dir node act r = recorded dir node act r.
Proof.
  intros Hnull. unfold update_req, recorded, dir_id. rewrite Hnull.
  rewrite bool_decide_eq_true_2 by done.
  destruct act, dir; simpl; by rewrite ?Hnull.
Qed.

(** The block that a branch of the engine runs, seen from a CU of the
    subset: the memory handed to the recursive calls holds the request that
    the loop body of [fsync_update_cus_req] has written, and what an active
    node has put on a CU whose node was None stays to the end of the call. *)
Lemma visit_halves_records fuel cus l h dir th node act ax sub_th sd sn m b m' i c :
  NoDup cus → i ∈ cus → m !! i = Some c →
  l = filter (λ p, pos_on ax (deref m p) < th) cus →
  h = filter (λ p, ¬ pos_on ax (deref m p) < th) cus →
  visit_halves (fsync_partition_subtree fuel) l h dir node act ax th sub_th sd sn m
    = Some (b, m') →
  ∃ lb hb m1 c0 c',
    halves_mem l h dir node act ax th m !! i = Some c0 ∧
    fsync_req c0 = update_req dir node act (fsync_req c) ∧
    fsync_partition_subtree fuel l sd (sub_th (th / 2)) sn
      (halves_mem l h dir node act ax th m) = Some (lb, m1) ∧
    fsync_partition_subtree fuel h sd (sub_th (th / 2)) sn m1 = Some (hb, m') ∧
    m' !! i = Some c' ∧
    (req_node (fsync_req c) = null_fs_node → act = true → node ≠ null_fs_node →
     req_node (fsync_req c') = node ∧ fs_req_id (fsync_req c') = dir_id dir).
Proof.
  intros Hnd Hi Hc El Eh Hrun.
  apply visit_halves_inv in Hrun as (lb & hb & m1 & Hrl & Hrh & _).
  pose proof (halves_mem_filter cus dir node act ax th m i c Hnd Hi Hc) as Hc0.
  rewrite <- El, <- Eh in Hc0. cbv zeta in Hc0.
  set (c0 := if decide (pos_on ax c < th)
             then set_req c (update_req dir node act (fsync_req c))
             else renorm ax th (set_req c (update_req dir node act (fsync_req c)))) in *.
  assert (fsync_req c0 = update_req dir node act (fsync_req c)) as Hreq.
  { unfold c0. destruct (decide _); [done|]. by destruct ax. }
  pose proof (subtree_node_kept _ _ _ _ _ _ _ _ Hrl) as Hk1.
  pose proof (subtree_node_kept _ _ _ _ _ _ _ _ Hrh) as Hk2.
  destruct (Forall2_lookup_l _ _ _ _ _ Hk1 Hc0) as (c1 & Hc1 & Hkept1).
  destruct (Forall2_lookup_l _ _ _ _ _ Hk2 Hc1) as (c' & Hc' & Hkept2).
  exists lb, hb, m1, c0, c'. split_and!; try done.
  intros Hnull -> Hnode.
  assert (req_node (fsync_req c0) = node ∧ fs_req_id (fsync_req c0) = dir_id dir)
    as [Hn0 Hi0] by (by rewrite Hreq, update_req_none).
  destruct Hkept1 as [Hn1 Hi1]; [by rewrite Hn0|].
  destruct Hkept2 as [Hn2 Hi2]; [by rewrite Hn1, Hn0|].
  split; congruence.
Qed.

(** A call of the engine at a threshold of at least 1 runs the block of one
    of its branches, with the node kind of the call and its [node_active]. *)
Lemma subtree_step fuel cus dir th node m b m' :
  1 ≤ th →
  fsync_partition_subtree (S fuel) cus dir th node m = Some (b, m') →
  ∃ ax sub_th sd sn,
    visit_halves (fsync_partition_subtree fuel)
      (filter (λ p, pos_on ax (deref m p) < th) cus)
      (filter (λ p, ¬ pos_on ax (deref m p) < th) cus)
      dir node (node_active_at m cus dir th node) ax th sub_th sd sn m = Some (b, m').
Proof.
  intros Hth. cbn [fsync_partition_subtree].
  destruct (Z.ltb_spec th 1); [lia|].
  unfold node_active_at, fsync_partition_h_cus, fsync_partition_v_cus.
  cbv zeta. cbn [fst].
  generalize (bool_decide (0 < length (filter (λ p, (x_pos (deref m p) < th)%Z) cus))%nat
              && bool_decide (0 < length (filter (λ p, ¬ (x_pos (deref m p) < th)%Z) cus))%nat).
  generalize (bool_decide (0 < length (filter (λ p, (y_pos (deref m p) < th)%Z) cus))%nat
              && bool_decide (0 < length (filter (λ p, ¬ (y_pos (deref m p) < th)%Z) cus))%nat).
  intros va ha.
  destruct node, dir, ha, va; cbn [andb orb negb]; intros Hrun.
  all: first [ exists x_axis; eexists _, _, _; exact Hrun
             | exists y_axis; eexists _, _, _; exact Hrun ].
Qed.

(** C3, as amended. A call of the engine at a node of kind [node] (threshold
    at least 1) and a CU of its subset. The engine records with its own
    [node] and [dir] and with [act], its [node_active]: in the memory [m0]
    that it hands to its recursive calls, the aggregate of the CU is shifted
    left by one with the activity bit or-ed in. If the node of the CU was
    still None and the recording node is active, its node is [node]
    (Horizontal or Vertical at a single-axis node, Both at a combined node)
    and its id is 0 for direction Horizontal and 1 for Vertical; if the
    recording node is inactive, node and id are as before; a node that was
    not None stays, with its id. What an active node has put is still there
    when the call returns. In particular, at a combined node where both
    partitions split, a CU whose node was None receives Both and ends the
    call with Both. *)
Theorem record_contribution fuel cus dir th node m b m' i c :
  NoDup cus → i ∈ cus → m !! i = Some c →
  1 ≤ th →
  fsync_partition_subtree (S fuel) cus dir th node m = Some (b, m') →
  let act := node_active_at m cus dir th node in
  ∃ ax sd sn th' lb hb m1 c0 c',
    let l := filter (λ p, pos_on ax (deref m p) < th) cus in
    let h := filter (λ p, ¬ pos_on ax (deref m p) < th) cus in
    let m0 := halves_mem l h dir node act ax th m in
    m0 !! i = Some c0 ∧
    fs_req_aggr (fsync_req c0)
    = Z.lor (wrap (Z.shiftl (fs_req_aggr (fsync_req c)) 1)) (if act then 1 else 0) ∧
    (req_node (fsync_req c) = null_fs_node →
     fsync_req c0 = recorded dir node act (fsync_req c)) ∧
    (req_node (fsync_req c) ≠ null_fs_node →
     req_node (fsync_req c0) = req_node (fsync_req c) ∧
     fs_req_id (fsync_req c0) = fs_req_id (fsync_req c)) ∧
    fsync_partition_subtree fuel l sd th' sn m0 = Some (lb, m1) ∧
    fsync_partition_subtree fuel h sd th' sn m1 = Some (hb, m') ∧
    m' !! i = Some c' ∧
    (req_node (fsync_req c) = null_fs_node → act = true → node ≠ null_fs_node →
     req_node (fsync_req c') = node ∧ fs_req_id (fsync_req c') = dir_id dir) ∧
    (req_node (fsync_req c) = null_fs_node → node = hv_fs_node →
     fst (fst (fsync_partition_h_cus m cus th)) = true →
     fst (fst (fsync_partition_v_cus m cus th)) = true →
     req_node (fsync_req c0) = hv_fs_node ∧ req_node (fsync_req c') = hv_fs_node).
Proof.
  intros Hnd Hi Hc Hth Hrun act.
  apply subtree_step in Hrun as (ax & sub_th & sd & sn & Hrun); [|done].
  fold act in Hrun.
  eapply visit_halves_records in Hrun
    as (lb & hb & m1 & c0 & c' & Hc0 & Hreq & Hrl & Hrh & Hc' & Hend); [|done..].
  exists ax, sd, sn, (sub_th (th / 2)), lb, hb, m1, c0, c'.
  cbv zeta. split_and!; try done.
  - rewrite Hreq. apply update_req_aggr.
  - intros Hnull. by rewrite Hreq, update_req_none.
  - intros Hset. rewrite Hreq. by apply update_req_sticky.
  - intros Hnull -> Hh Hv.
    assert (act = true) as Hact by (unfold act, node_active_at; by rewrite Hh, Hv).
    split; [by rewrite Hreq, update_req_none, Hact|]. by apply Hend.
Qed.

Lemma record_contribution_witness :
  NoDup [0; 1; 2]%nat ∧ 0%nat ∈ [0; 1; 2]%nat ∧
  [cu 0 0 0; cu 1 2 2; cu 2 3 3] !! 0%nat = Some (cu 0 0 0) ∧
  req_node (fsync_req (cu 0 0 0)) = null_fs_node ∧
  1 ≤ 2 ∧
  fsync_partition_subtree 6 [0; 1; 2]%nat h_fs_dir 2 hv_fs_node
    [cu 0 0 0; cu 1 2 2; cu 2 3 3]
  = Some (true, [mk_cu 0 0 0 (mk_req 8 0 hv_fs_node); mk_cu 1 0 0 (mk_req 10 0 hv_fs_node);
                 mk_cu 2 0 0 (mk_req 10 0 hv_fs_node)]) ∧
  ∃ c0 c',
    fsync_req c0
    = recorded h_fs_dir hv_fs_node
        (node_active_at [cu 0 0 0; cu 1 2 2; cu 2 3 3] [0; 1; 2]%nat h_fs_dir 2 hv_fs_node)
        (fsync_req (cu 0 0 0)) ∧
    req_node (fsync_req c0) = hv_fs_node ∧
    [mk_cu 0 0 0 (mk_req 8 0 hv_fs_node); mk_cu 1 0 0 (mk_req 10 0 hv_fs_node);
     mk_cu 2 0 0 (mk_req 10 0 hv_fs_node)] !! 0%nat = Some c' ∧
    req_node (fsync_req c') = hv_fs_node.
Proof.
  assert (NoDup [0; 1; 2]%nat) as Hnd by (apply (NoDup_seq 0 3)).
  assert (0%nat ∈ [0; 1; 2]%nat) as Hin by (left).
  assert (1 ≤ 2) as Hth by lia.
  assert (fsync_partition_subtree 6 [0; 1; 2]%nat h_fs_dir 2 hv_fs_node
            [cu 0 0 0; cu 1 2 2; cu 2 3 3]
          = Some (true, [mk_cu 0 0 0 (mk_req 8 0 hv_fs_node);
                         mk_cu 1 0 0 (mk_req 10 0 hv_fs_node);
                         mk_cu 2 0 0 (mk_req 10 0 hv_fs_node)])) as Hrun
    by (vm_compute; reflexivity).
  split_and!; [exact Hnd|exact Hin|reflexivity|reflexivity|exact Hth|exact Hrun|].
  destruct (record_contribution 5 [0; 1; 2]%nat h_fs_dir 2 hv_fs_node
              [cu 0 0 0; cu 1 2 2; cu 2 3 3] _ _ 0%nat (cu 0 0 0)
              Hnd Hin eq_refl Hth Hrun)
    as (ax & sd & sn & th' & lb & hb & m1 & c0 & c' &
        _ & _ & Hreq & _ & _ & _ & Hc' & _ & Hboth).
  destruct Hboth as [Hn0 Hn']; [reflexivity|reflexivity|vm_compute; reflexivity..|].
  exists c0, c'. split_and!; [exact (Hreq eq_refl)|exact Hn0|exact Hc'|exact Hn'].
Defined.

(** At a jointly active combined node, every CU whose node was still None
    leaves the call with node Both and the id of the traversal direction. *)
Lemma combined_node_marks_both fuel cus dir th m b m' i c :
  NoDup cus → i ∈ cus → m !! i = Some c →
  req_node (fsync_req c) = null_fs_node →
  1 ≤ th →
  fst (fst (fsync_partition_h_cus m cus th)) = true →
  fst (fst (fsync_partition_v_cus m cus th)) = true →
  fsync_partition_subtree (S fuel) cus dir th hv_fs_node m = Some (b, m') →
  ∃ c', m' !! i = Some c' ∧
        req_node (fsync_req c') = hv_fs_node ∧
        fs_req_id (fsync_req c') = match dir with h_fs_dir => 0 | v_fs_dir => 1 end.
Proof.
  intros Hnd Hi Hc Hnull Hth Hh Hv. cbn [fsync_partition_subtree].
  destruct (Z.ltb_spec th 1); [lia|].
  destruct (fsync_partition_h_cus m cus th) as [[ha hl] hh] eqn:Eh.
  destruct (fsync_partition_v_cus m cus th) as [[va vl] vh] eqn:Ev.
  cbn [fst] in Hh, Hv. subst ha va. cbn [andb orb].
  apply partition_h_spec in Eh as (Ehl & Ehh & _).
  apply partition_v_spec in Ev as (Evl & Evh & _).
  assert (∀ l h sd sn ax,
    l = filter (λ p, pos_on ax (deref m p) < th) cus →
    h = filter (λ p, ¬ pos_on ax (deref m p) < th) cus →
    visit_halves (fsync_partition_subtree fuel) l h dir hv_fs_node true ax th
                 (λ _, th) sd sn m = Some (b, m') →
    ∃ c', m' !! i = Some c' ∧ req_node (fsync_req c') = hv_fs_node ∧
          fs_req_id (fsync_req c') = match dir with h_fs_dir => 0 | v_fs_dir => 1 end)
    as Hvisit.
  { intros l h sd sn ax El Eh Hrun.
    apply visit_halves_inv in Hrun as (lb & hb & m1 & Hrl & Hrh & _).
    destruct (filter_halves (λ p, pos_on ax (deref m p) < th) cus)
      as (_ & _ & Hdisj & Hnd').
    rewrite <- El, <- Eh in *. destruct (Hnd' Hnd) as [Hndl Hndh].
    assert (∃ c0, halves_mem l h dir hv_fs_node true ax th m !! i = Some c0 ∧
                  req_node (fsync_req c0) = hv_fs_node ∧
                  fs_req_id (fsync_req c0)
                  = match dir with h_fs_dir => 0 | v_fs_dir => 1 end)
      as (c0 & Hc0 & Hn0 & Hi0).
    { destruct (decide (pos_on ax (deref m i) < th)) as [Hlow|Hhigh].
      - assert (i ∈ l) as Hil by (rewrite El; by apply list_elem_of_filter).
        rewrite halves_mem_in_l, Hc by auto. eexists. split; [done|].
        simpl. unfold update_req. rewrite Hnull. simpl. by destruct dir.
      - assert (i ∈ h) as Hih by (rewrite Eh; by apply list_elem_of_filter).
        assert (i ∉ l) as Hil by (intros Hil; by apply (Hdisj i Hil)).
        rewrite halves_mem_in_h, Hc by auto. eexists. split; [done|].
        destruct ax; simpl; unfold update_req; rewrite Hnull; simpl; by destruct dir. }
    apply subtree_node_kept in Hrl, Hrh.
    destruct (Forall2_lookup_l _ _ _ _ _ Hrl Hc0) as (c1 & Hc1 & Hk1).
    destruct (Forall2_lookup_l _ _ _ _ _ Hrh Hc1) as (c2 & Hc2 & Hk2).
    destruct Hk1 as [Hn1 Hi1]; [by rewrite Hn0|].
    destruct Hk2 as [Hn2 Hi2]; [by rewrite Hn1, Hn0|].
    exists c2. split; [done|]. split; congruence. }
  destruct dir; intros Hrun; eapply Hvisit; try exact Hrun.
  - exact Evl.
  - exact Evh.
  - exact Ehl.
  - exact Ehh.
Qed.

(** C3 as stated fails on the CUs (0, 0), (2, 2) and (3, 3): the root, a
    combined node, is jointly active, and every CU leaves the call with node
    Both, not Horizontal or Vertical. *)
Lemma combined_node_counterexample :
  let cus := [cu 0 0 0; cu 1 2 2; cu 2 3 3] in
  fst (fst (fsync_partition_h_cus cus [0; 1; 2]%nat FSYNC_DEFAULT_TH)) = true ∧
  fst (fst (fsync_partition_v_cus cus [0; 1; 2]%nat FSYNC_DEFAULT_TH)) = true ∧
  ∃ cus', fsync_gen_reqs cus h_fs_dir = Some (true, cus') ∧
          Forall (λ c, req_node (fsync_req c) = hv_fs_node ∧
                       req_node (fsync_req c) ≠ h_fs_node ∧
                       req_node (fsync_req c) ≠ v_fs_node) cus'.
Proof.
  split_and!; [vm_compute; reflexivity..|].
  eexists. split; [vm_compute; reflexivity|].
  repeat constructor; discriminate.
Qed.

(** ** First write wins *)

(** C4, as amended. In the partition engine (the path of three or more
    CUs), across any call and so across every recursive call, a CU whose node
    is set keeps that node and its id: node only ever changes from None to a
    concrete value. *)
Theorem node_written_once fuel cus dir th node m b m' i c :
  fsync_partition_subtree fuel cus dir th node m = Some (b, m') →
  m !! i = Some c →
  req_node (fsync_req c) ≠ null_fs_node →
  ∃ c', m' !! i = Some c' ∧
        req_node (fsync_req c') = req_node (fsync_req c) ∧
        fs_req_id (fsync_req c') = fs_req_id (fsync_req c).
Proof.
  intros Hrun Hc Hset. apply subtree_node_kept in Hrun.
  destruct (Forall2_lookup_l _ _ _ _ _ Hrun Hc) as (c' & Hc' & Hkept).
  exists c'. split; [done|]. by apply Hkept.
Qed.

Lemma node_written_once_witness :
  fsync_partition_subtree 6 [0; 1; 2]%nat v_fs_dir 2 hv_fs_node
    [mk_cu 0 0 0 (mk_req 1 0 h_fs_node); cu 1 2 2; cu 2 3 3]
  = Some (true, [mk_cu 0 0 0 (mk_req 24 0 h_fs_node);
                 mk_cu 1 0 0 (mk_req 10 1 hv_fs_node);
                 mk_cu 2 0 0 (mk_req 10 1 hv_fs_node)]) ∧
  [mk_cu 0 0 0 (mk_req 1 0 h_fs_node); cu 1 2 2; cu 2 3 3] !! 0%nat
  = Some (mk_cu 0 0 0 (mk_req 1 0 h_fs_node)) ∧
  req_node (fsync_req (mk_cu 0 0 0 (mk_req 1 0 h_fs_node))) ≠ null_fs_node ∧
  ∃ c', [mk_cu 0 0 0 (mk_req 24 0 h_fs_node);
         mk_cu 1 0 0 (mk_req 10 1 hv_fs_node);
         mk_cu 2 0 0 (mk_req 10 1 hv_fs_node)] !! 0%nat = Some c' ∧
        req_node (fsync_req c') = h_fs_node ∧ fs_req_id (fsync_req c') = 0.
Proof.
  assert (fsync_partition_subtree 6 [0; 1; 2]%nat v_fs_dir 2 hv_fs_node
            [mk_cu 0 0 0 (mk_req 1 0 h_fs_node); cu 1 2 2; cu 2 3 3]
          = Some (true, [mk_cu 0 0 0 (mk_req 24 0 h_fs_node);
                         mk_cu 1 0 0 (mk_req 10 1 hv_fs_node);
                         mk_cu 2 0 0 (mk_req 10 1 hv_fs_node)])) as Hrun
    by (vm_compute; reflexivity).
  assert (req_node (fsync_req (mk_cu 0 0 0 (mk_req 1 0 h_fs_node))) ≠ null_fs_node)
    as Hset by discriminate.
  split_and!; [exact Hrun|reflexivity|exact Hset|].
  exact (node_written_once _ _ _ _ _ _ _ _ 0%nat _ Hrun eq_refl Hset).
Defined.

(** On the two-CU path the node is written twice; the second write changes
    it only on a tie. *)
Lemma pair_node_rewritten c0 c1 d cus' :
  let x_dist := abs_diff (x_pos c0) (x_pos c1) in
  let y_dist := abs_diff (y_pos c0) (y_pos c1) in
  1 < wrap (x_dist + y_dist) → x_dist ≠ y_dist →
  fsync_gen_reqs [c0; c1] d = Some (true, cus') →
  Forall (λ c, req_node (fsync_req c) = snd (pair_tag x_dist y_dist d)) cus'.
Proof.
  intros x_dist y_dist Hdist Hne Hrun.
  rewrite gen_reqs_pair, gen_pair_far in Hrun by done. cbv zeta in Hrun.
  cbn [x_pos y_pos set_req] in Hrun. fold x_dist y_dist in Hrun.
  destruct (1 <? _); [|done]. injection Hrun as <-.
  unfold deciding_dir, pair_tag.
  destruct (Z.ltb_spec y_dist x_dist), (Z.ltb_spec x_dist y_dist),
    (Z.eqb_spec x_dist y_dist); try lia.
  all: by repeat constructor.
Qed.

(** C4 as stated fails on the two-CU path at the diagonal neighbours (0, 0)
    and (1, 1): the distance comparison writes node Both into both requests,
    and after the hop walk the same call overwrites it with Horizontal. *)
Lemma pair_node_overwritten_counterexample :
  pair_tagged (cu 0 0 0) (cu 1 1 1) h_fs_dir
  = (h_fs_dir, mk_cu 0 0 0 (mk_req 0 0 hv_fs_node), mk_cu 1 1 1 (mk_req 0 0 hv_fs_node)) ∧
  fsync_gen_reqs [cu 0 0 0; cu 1 1 1] h_fs_dir
  = Some (true, [mk_cu 0 0 0 (mk_req 2 0 h_fs_node); mk_cu 1 1 1 (mk_req 2 0 h_fs_node)]) ∧
  hv_fs_node ≠ null_fs_node ∧ h_fs_node ≠ hv_fs_node.
Proof. split_and!; [reflexivity|reflexivity|discriminate|discriminate]. Qed.

(** * Further properties *)

(** ** The engine, branch by branch *)

(** In every branch the flag with which a node records its contribution is
    the flag of the partition it descends into: the node is active iff both
    halves that it recurses into are non-empty. The recursive calls are made
    with a direction and node kind that agree. *)
Lemma subtree_unfold_split fuel cus dir th node m b m' :
  fsync_partition_subtree (S fuel) cus dir th node m = Some (b, m') →
  1 ≤ th →
  ∃ ax th' sd sn lb hb m1,
    let l := filter (λ p, pos_on ax (deref m p) < th) cus in
    let h := filter (λ p, ¬ pos_on ax (deref m p) < th) cus in
    let act := bool_decide (l ≠ [] ∧ h ≠ []) in
    ((node = hv_fs_node ∧ th' = th ∧
      ((ax = y_axis ∧ sd = h_fs_dir ∧ sn = h_fs_node) ∨
       (ax = x_axis ∧ sd = v_fs_dir ∧ sn = v_fs_node))) ∨
     (node ≠ hv_fs_node ∧ th' = th / 2 ∧ sn = hv_fs_node ∧ sd = dir ∧
      ax = dir_axis dir)) ∧
    fsync_partition_subtree fuel l sd th' sn (halves_mem l h dir node act ax th m)
      = Some (lb, m1) ∧
    fsync_partition_subtree fuel h sd th' sn m1 = Some (hb, m') ∧
    b = act || lb || hb.
Proof.
  cbn [fsync_partition_subtree]. destruct (Z.ltb_spec th 1) as [Hth|Hth]; [lia|].
  intros Hrun _.
  destruct (fsync_partition_h_cus m cus th) as [[ha hl] hh] eqn:Hh.
  destruct (fsync_partition_v_cus m cus th) as [[va vl] vh] eqn:Hv.
  apply partition_h_spec in Hh as (Hhl & Hhh & Hha).
  apply partition_v_spec in Hv as (Hvl & Hvh & Hva).
  subst hl hh vl vh.
  destruct node.
  4: {
    destruct (ha && va || negb ha && negb va) eqn:Hjoint; [destruct dir|destruct ha eqn:Eha].
    - assert (ha && va = va) as Hact by (destruct ha, va; done).
      rewrite Hact, Hva in Hrun.
      apply visit_halves_inv in Hrun as (lb & hb & m1 & Hl & Hr & ->).
      exists y_axis, th, h_fs_dir, h_fs_node, lb, hb, m1.
      split_and!; try done. left. split_and!; try done. by left.
    - assert (ha && va = ha) as Hact by (destruct ha, va; done).
      rewrite Hact, Hha in Hrun.
      apply visit_halves_inv in Hrun as (lb & hb & m1 & Hl & Hr & ->).
      exists x_axis, th, v_fs_dir, v_fs_node, lb, hb, m1.
      split_and!; try done. left. split_and!; try done. by right.
    - assert (true && va = va) as Hact by done.
      rewrite Hact, Hva in Hrun.
      apply visit_halves_inv in Hrun as (lb & hb & m1 & Hl & Hr & ->).
      exists y_axis, th, h_fs_dir, h_fs_node, lb, hb, m1.
      split_and!; try done. left. split_and!; try done. by left.
    - assert (false && va = false) as Hact by done.
      rewrite Hact, Hha in Hrun.
      apply visit_halves_inv in Hrun as (lb & hb & m1 & Hl & Hr & ->).
      exists x_axis, th, v_fs_dir, v_fs_node, lb, hb, m1.
      split_and!; try done. left. split_and!; try done. by right. }
  all: destruct dir; cbv beta iota in Hrun.
  all: first [ rewrite Hha in Hrun | rewrite Hva in Hrun ].
  all: apply visit_halves_inv in Hrun as (lb & hb & m1 & Hl & Hr & ->).
  all: [> exists x_axis, (th / 2), h_fs_dir, hv_fs_node, lb, hb, m1
        | exists y_axis, (th / 2), v_fs_dir, hv_fs_node, lb, hb, m1
        | exists x_axis, (th / 2), h_fs_dir, hv_fs_node, lb, hb, m1
        | exists y_axis, (th / 2), v_fs_dir, hv_fs_node, lb, hb, m1
        | exists x_axis, (th / 2), h_fs_dir, hv_fs_node, lb, hb, m1
        | exists y_axis, (th / 2), v_fs_dir, hv_fs_node, lb, hb, m1 ].
  all: split_and!; try done; right; done.
Qed.

(** A partition that does not split hands the whole subset to one side. *)
Lemma filter_no_split (P : ptr → Prop) `{!∀ p, Decision (P p)} (cus : list ptr) :
  bool_decide (filter P cus ≠ [] ∧ filter (λ p, ¬ P p) cus ≠ []) = false →
  (filter P cus = cus ∧ filter (λ p, ¬ P p) cus = [] ∧ ∀ p, p ∈ cus → P p) ∨
  (filter P cus = [] ∧ filter (λ p, ¬ P p) cus = cus ∧ ∀ p, p ∈ cus → ¬ P p).
Proof.
  intros Hno. apply bool_decide_eq_false in Hno.
  destruct (decide (filter P cus = [])) as [Hl|Hl].
  - right. assert (∀ p, p ∈ cus → ¬ P p) as Hall.
    { intros p Hp HP. by apply (filter_nil_not_elem_of P cus p). }
    split_and!; [done| |done]. by apply filter_all.
  - left. destruct (decide (filter (λ p, ¬ P p) cus = [])) as [Hh|Hh]; [|tauto].
    assert (∀ p, p ∈ cus → P p) as Hall.
    { intros p Hp. destruct (decide (P p)) as [|HnP]; [done|].
      by destruct (filter_nil_not_elem_of (λ q, ¬ P q) cus p). }
    split_and!; [|done|done]. by apply filter_all.
Qed.

(** ** Aggregates that stay positive *)

Lemma shift_in_exact a bit :
  0 ≤ a → 2 * a < 2 ^ 32 → shift_in a bit = 2 * a + (if bit then 1 else 0).
Proof.
  intros H0 Hsmall. unfold shift_in. rewrite Z.shiftl_mul_pow2 by lia.
  change (2 ^ 1) with 2. rewrite wrap_small by lia. destruct bit.
  - pose proof (Z.add_lor_land (a * 2) 1) as Hadd.
    assert (Z.land (a * 2) 1 = 0) as Hland.
    { change 1 with (Z.ones 1) at 1. rewrite Z.land_ones by lia.
      change (2 ^ 1) with 2. apply Z.mod_mul. lia. }
    lia.
  - rewrite Z.lor_0_r. lia.
Qed.

(** A positive aggregate stays positive as long as no set bit is shifted out
    of the 32 bits. *)
Lemma grown_by_pos n a a' :
  grown_by n a a' → 1 ≤ a → (a + 1) * 2 ^ Z.of_nat n ≤ 2 ^ 32 → 1 ≤ a'.
Proof.
  intros (bits & Hlen & ->). revert n a Hlen.
  induction bits as [|bit bits IH]; intros n a Hlen Ha Hfit; simpl in *; [done|].
  destruct n as [|n]; [lia|].
  replace (Z.of_nat (S n)) with (Z.succ (Z.of_nat n)) in Hfit by lia.
  rewrite Z.pow_succ_r in Hfit by lia.
  assert (1 ≤ 2 ^ Z.of_nat n) by (apply Z.pow_le_mono_r with (b := 0); lia).
  assert (2 * a < 2 ^ 32) by nia.
  rewrite shift_in_exact by lia.
  apply (IH n); [lia|destruct bit; lia|destruct bit; nia].
Qed.

(** ** The first active node *)

Lemma node_of_dir_step dir node th th' ax sd sn :
  (node = hv_fs_node ∧ th' = th ∧
   ((ax = y_axis ∧ sd = h_fs_dir ∧ sn = h_fs_node) ∨
    (ax = x_axis ∧ sd = v_fs_dir ∧ sn = v_fs_node))) ∨
  (node ≠ hv_fs_node ∧ th' = th / 2 ∧ sn = hv_fs_node ∧ sd = dir ∧
   ax = dir_axis dir) →
  node_of_dir sd sn ∧
  ((node = hv_fs_node ∧ th' = th ∧ sn ≠ hv_fs_node) ∨
   (node ≠ hv_fs_node ∧ th' = th / 2 ∧ sn = hv_fs_node)).
Proof.
  unfold node_of_dir.
  intros [(-> & -> & [(_ & -> & ->)|(_ & -> & ->)])|(Hn & -> & -> & -> & _)].
  all: split; [|first [left; done | right; done]]; auto.
Qed.

(** A call that returns true has an active node, and the first active node
    on the way down holds the whole subset: it gives every CU of the subset
    its own kind as node and the id of its direction, and a 1 bit that is not
    shifted out afterwards. *)
Lemma subtree_true_marks_all fuel cus dir th node m m' :
  NoDup cus → node_of_dir dir node → (subtree_levels th node ≤ 32)%nat →
  fresh m cus →
  fsync_partition_subtree fuel cus dir th node m = Some (true, m') →
  ∃ r_node r_id,
    ((r_node = hv_fs_node ∧ (r_id = 0 ∨ r_id = 1)) ∨
     (r_node = h_fs_node ∧ r_id = 0) ∨ (r_node = v_fs_node ∧ r_id = 1)) ∧
    marked m' cus r_node r_id.
Proof.
  revert cus dir th node m m'.
  induction fuel as [|fuel IH]; intros cus dir th node m m' Hnd Hkind0 Hlev Hfresh Hrun;
    [done|].
  assert (1 ≤ th) as Hth.
  { destruct (Z.le_gt_cases 1 th); [done|].
    apply subtree_unfold in Hrun as [(_ & Hb & _)|(Hth & _)]; [done|lia]. }
  apply subtree_unfold_split in Hrun
    as (ax & th' & sd & sn & lb & hb & m1 & Hkind & Hrl & Hrh & Hb); [|done].
  cbv zeta in *.
  destruct (node_of_dir_step _ _ _ _ _ _ _ Hkind) as [Hkind1 Hkind2].
  pose proof (subtree_levels_step th node th' sn Hth Hkind2) as Hstep.
  destruct (filter_halves (λ p, pos_on ax (deref m p) < th) cus)
    as (Hlc & Hhc & Hdisj & Hnd').
  destruct (Hnd' Hnd) as [Hndl Hndh].
  assert (Hm0 : ∀ act p, p ∈ cus → ∃ c c0,
             m !! p = Some c ∧
             halves_mem (filter (λ q, pos_on ax (deref m q) < th) cus)
                        (filter (λ q, ¬ pos_on ax (deref m q) < th) cus)
                        dir node act ax th m !! p = Some c0 ∧
             fsync_req c0 = update_req dir node act default_req).
  { intros act p Hp. destruct (Hfresh p Hp) as (c & Hc & Hreq).
    exists c. eexists. split; [done|]. split; [by apply halves_mem_filter|].
    cbv zeta. rewrite Hreq. destruct (decide _); [done|by destruct ax]. }
  destruct (bool_decide (_ ≠ [] ∧ _ ≠ [])) eqn:Hact.
  - (* this node is the first active one *)
    exists node, (if bool_decide (dir = h_fs_dir) then 0 else 1). split.
    { destruct Hkind0 as [->|[[-> ->]|[-> ->]]]; [left|right; left|right; right].
      - split; [done|]. by destruct dir; [left|right].
      - done.
      - done. }
    assert (node ≠ null_fs_node) as Hnn.
    { by destruct Hkind0 as [->|[[_ ->]|[_ ->]]]. }
    intros p Hp. destruct (Hm0 true p Hp) as (c & c0 & Hc & Hc0 & Hreq0).
    assert (req_node (fsync_req c0) = node ∧
            fs_req_id (fsync_req c0) = (if bool_decide (dir = h_fs_dir) then 0 else 1) ∧
            fs_req_aggr (fsync_req c0) = 1) as (Hn0 & Hi0 & Ha0).
    { rewrite Hreq0. done. }
    assert (∀ c', grown_by (subtree_levels th' sn) 1 (fs_req_aggr (fsync_req c')) →
                  1 ≤ fs_req_aggr (fsync_req c')) as Hpos.
    { intros c' Hg. apply (grown_by_pos _ _ _ Hg); [lia|].
      transitivity ((1 + 1) * 2 ^ 31); [|done].
      apply Z.mul_le_mono_nonneg_l; [lia|].
      apply Z.pow_le_mono_r; lia. }
    pose proof (subtree_node_kept _ _ _ _ _ _ _ _ Hrl) as Hk1.
    pose proof (subtree_node_kept _ _ _ _ _ _ _ _ Hrh) as Hk2.
    destruct (Forall2_lookup_l _ _ _ _ _ Hk1 Hc0) as (c1 & Hc1 & Hkept1).
    destruct (Forall2_lookup_l _ _ _ _ _ Hk2 Hc1) as (c2 & Hc2 & Hkept2).
    destruct Hkept1 as [Hn1 Hi1]; [by rewrite Hn0|].
    destruct Hkept2 as [Hn2 Hi2]; [by rewrite Hn1, Hn0|].
    exists c2. split; [done|]. split; [congruence|]. split; [congruence|].
    destruct (decide (p ∈ filter (λ q, pos_on ax (deref m q) < th) cus)) as [Hl|Hl].
    + destruct (subtree_aggr_grown _ _ _ _ _ _ _ _ p c0 Hndl Hrl Hc0)
        as (c1' & Hc1' & Hg).
      rewrite (subtree_frame _ _ _ _ _ _ _ _ p Hrh) in Hc2 by auto.
      rewrite Hc1' in Hc2. injection Hc2 as <-. rewrite Ha0 in Hg. by apply Hpos.
    + assert (m1 !! p = Some c0) as Hm1.
      { by rewrite (subtree_frame _ _ _ _ _ _ _ _ p Hrl) by done. }
      destruct (subtree_aggr_grown _ _ _ _ _ _ _ _ p c0 Hndh Hrh Hm1)
        as (c2' & Hc2' & Hg).
      rewrite Hc2' in Hc2. injection Hc2 as <-. rewrite Ha0 in Hg. by apply Hpos.
  - (* the whole subset goes down on one side *)
    assert (fresh (halves_mem (filter (λ q, pos_on ax (deref m q) < th) cus)
                              (filter (λ q, ¬ pos_on ax (deref m q) < th) cus)
                              dir node false ax th m) cus) as Hfresh0.
    { intros p Hp. destruct (Hm0 false p Hp) as (c & c0 & Hc & Hc0 & Hreq0).
      exists c0. split; [done|]. rewrite Hreq0. by apply update_req_inactive. }
    destruct (filter_no_split _ cus Hact) as [(El & Eh & _)|(El & Eh & _)];
      rewrite El, Eh in *.
    + apply subtree_nil in Hrh as [-> ->]. rewrite orb_false_r in Hb. simpl in Hb.
      subst lb. apply (IH _ _ _ _ _ _ Hnd Hkind1) in Hrl; [done|lia|done].
    + apply subtree_nil in Hrl as [-> ->]. simpl in Hb. subst hb.
      apply (IH _ _ _ _ _ _ Hnd Hkind1) in Hrh; [done|lia|done].
Qed.

(** ** One barrier for all CUs *)

Lemma wrap_even_ne_1 k : wrap (k + k) ≠ 1.
Proof.
  unfold wrap. replace (k + k) with (2 * k) by lia.
  change (2 ^ 32) with (2 * 2 ^ 31). rewrite Z.mul_mod_distr_l by lia. lia.
Qed.

Lemma init_reqs_fresh cus : fresh (fsync_init_reqs cus) (seq 0 (length (fsync_init_reqs cus))).
Proof.
  intros p Hp. apply elem_of_seq in Hp as [_ Hp]. simpl in Hp.
  destruct (lookup_lt_is_Some_2 (fsync_init_reqs cus) p Hp) as [c Hc].
  exists c. split; [done|].
  unfold fsync_init_reqs in Hc. rewrite list_lookup_fmap in Hc.
  destruct (cus !! p) as [c0|]; [|done]. by injection Hc as <-.
Qed.

Lemma gen_pair_success c0 c1 d cus' :
  fsync_gen_pair c0 c1 d = Some (true, cus') →
  ∃ node id aggr,
    request_sel node id ∧ 1 ≤ aggr ∧
    cus' = [set_req c0 (mk_req aggr id node); set_req c1 (mk_req aggr id node)].
Proof.
  set (x_dist := abs_diff (x_pos c0) (x_pos c1)).
  set (y_dist := abs_diff (y_pos c0) (y_pos c1)).
  destruct (Z.ltb_spec 1 (wrap (x_dist + y_dist))) as [Hfar|Hnear].
  - rewrite gen_pair_far by done. cbv zeta. fold x_dist y_dist.
    pose proof (lockstep_hops_range c0 c1) as Hr. change FSYNC_N_LVL with 4 in Hr.
    destruct (Z.ltb_spec 1 (lockstep_hops c0 c1)) as [Hh|Hh]; [|done].
    intros [= <-].
    assert (1 ≤ Z.shiftl 1 (lockstep_hops c0 c1 - 1)) as Hpos.
    { assert (lockstep_hops c0 c1 = 2 ∨ lockstep_hops c0 c1 = 3 ∨ lockstep_hops c0 c1 = 4)
        as [->|[->| ->]] by lia; done. }
    destruct (deciding_dir x_dist y_dist d).
    + exists h_fs_node, 0, (Z.shiftl 1 (lockstep_hops c0 c1 - 1)).
      split_and!; [by left|done|done].
    + exists v_fs_node, 1, (Z.shiftl 1 (lockstep_hops c0 c1 - 1)).
      split_and!; [by left|done|done].
  - unfold fsync_gen_pair, pair_tagged. fold x_dist y_dist.
    destruct (Z.eqb_spec (wrap (x_dist + y_dist)) 0); [done|].
    assert (wrap (x_dist + y_dist) = 1) as Hone.
    { pose proof (Z.mod_pos_bound (x_dist + y_dist) (2 ^ 32)). unfold wrap in *. lia. }
    assert (x_dist ≠ y_dist) as Hne.
    { intros E. rewrite E in Hone. by apply wrap_even_ne_1 in Hone. }
    unfold pair_tag.
    destruct (Z.ltb_spec y_dist x_dist); [|destruct (Z.eqb_spec x_dist y_dist); [done|]].
    all: rewrite Hone; change (1 =? 1) with true; cbv iota; intros [= <-].
    + exists h_fs_node, (nbr_id h_fs_dir c0 c1), 1. split_and!; [|done|done].
      simpl. destruct (fsync_nbr_node _ _); [by right|by left].
    + exists v_fs_node, (nbr_id v_fs_dir c0 c1), 1. split_and!; [|done|done].
      simpl. destruct (fsync_nbr_node _ _); [by right|by left].
Qed.

(** On success all CUs are sent to one barrier: every CU of the caller ends
    with the same node, which is not None, and the same id, which fits the
    node (0 or 2 for Horizontal, 1 or 3 for Vertical, 0 or 1 for Both), and
    with an aggregate that has a bit set. *)
Theorem success_one_barrier cus d cus' :
  fsync_gen_reqs cus d = Some (true, cus') →
  ∃ node id,
    request_sel node id ∧
    Forall (λ c, req_node (fsync_req c) = node ∧ fs_req_id (fsync_req c) = id ∧
                 1 ≤ fs_req_aggr (fsync_req c)) cus'.
Proof.
  intros Hrun. destruct cus as [|c0 [|c1 [|c2 cus]]]; [done|done| |].
  - rewrite gen_reqs_pair in Hrun.
    apply gen_pair_success in Hrun as (node & id & aggr & Hsel & Haggr & ->).
    exists node, id. split; [done|]. by repeat constructor.
  - apply gen_reqs_many_inv in Hrun as (t & Hrun & ->); [|simpl; lia].
    set (cus0 := c0 :: c1 :: c2 :: cus) in *.
    apply subtree_true_marks_all in Hrun as (node & id & Hsel & Hmarked).
    + exists node, id. split.
      { destruct Hsel as [[-> ?]|[[-> ->]|[-> ->]]]; simpl; auto. }
      apply Forall_lookup. intros i c' Hi.
      apply lookup_zip_with_Some in Hi as (c & ct & -> & Hc & Hct).
      destruct (Hmarked i) as (ct' & Hct' & Hm).
      { apply elem_of_seq. apply lookup_lt_Some in Hc. lia. }
      rewrite Hct in Hct'. by injection Hct' as <-.
    + apply NoDup_seq.
    + by left.
    + vm_compute. lia.
    + apply init_reqs_fresh.
Qed.

Lemma success_one_barrier_witness :
  fsync_gen_reqs [cu 0 0 0; cu 1 1 0; cu 2 3 0] h_fs_dir
  = Some (true, [mk_cu 0 0 0 (mk_req 5 1 v_fs_node); mk_cu 1 1 0 (mk_req 5 1 v_fs_node);
                 mk_cu 2 3 0 (mk_req 4 1 v_fs_node)]) ∧
  ∃ node id,
    request_sel node id ∧
    Forall (λ c, req_node (fsync_req c) = node ∧ fs_req_id (fsync_req c) = id ∧
                 1 ≤ fs_req_aggr (fsync_req c))
           [mk_cu 0 0 0 (mk_req 5 1 v_fs_node); mk_cu 1 1 0 (mk_req 5 1 v_fs_node);
            mk_cu 2 3 0 (mk_req 4 1 v_fs_node)].
Proof.
  assert (fsync_gen_reqs [cu 0 0 0; cu 1 1 0; cu 2 3 0] h_fs_dir
          = Some (true, [mk_cu 0 0 0 (mk_req 5 1 v_fs_node);
                         mk_cu 1 1 0 (mk_req 5 1 v_fs_node);
                         mk_cu 2 3 0 (mk_req 4 1 v_fs_node)])) as Hrun
    by (vm_compute; reflexivity).
  split; [exact Hrun|].
  exact (success_one_barrier _ _ _ Hrun).
Defined.

(** ** Failure means one position *)

(** On coordinates that fit the node, a call of the engine that returns
    false has found no split at any level, so all CUs of its subset are at
    one position. The threshold is a power of two, as the halving needs. *)
Lemma subtree_false_one_pos fuel k cus dir th node m m' :
  NoDup cus → 0 ≤ k → th = 2 ^ k → node_of_dir dir node →
  boxed m cus (node_box th dir node) →
  fsync_partition_subtree fuel cus dir th node m = Some (false, m') →
  ∃ x y, same_pos m cus x y.
Proof.
  revert k cus dir th node m m'.
  induction fuel as [|fuel IH];
    intros k cus dir th node m m' Hnd Hk Hpow Hkind0 Hbox Hrun; [done|].
  assert (1 ≤ th) as Hth.
  { subst th. change 1 with (2 ^ 0). apply Z.pow_le_mono_r; lia. }
  apply subtree_unfold_split in Hrun
    as (ax & th' & sd & sn & lb & hb & m1 & Hkind & Hrl & Hrh & Hb); [|done].
  cbv zeta in *.
  destruct (bool_decide (_ ≠ [] ∧ _ ≠ [])) eqn:Hact; [done|].
  simpl in Hb. symmetry in Hb. apply orb_false_iff in Hb as [-> ->].
  destruct (node_of_dir_step _ _ _ _ _ _ _ Hkind) as [Hkind1 _].
  set (m0 := halves_mem (filter (λ q, pos_on ax (deref m q) < th) cus)
                        (filter (λ q, ¬ pos_on ax (deref m q) < th) cus)
                        dir node false ax th m) in *.
  (* the CUs of the subset before and after this node *)
  assert (Hm0 : ∀ p, p ∈ cus → ∃ c c0,
             m !! p = Some c ∧ m0 !! p = Some c0 ∧
             (∀ ax', 0 ≤ pos_on ax' c < node_box th dir node ax') ∧
             (∀ ax', ax' ≠ ax → pos_on ax' c0 = pos_on ax' c) ∧
             pos_on ax c0 = (if decide (pos_on ax c < th) then pos_on ax c
                             else pos_on ax c - th) ∧
             (pos_on ax (deref m p) < th ↔ pos_on ax c < th)).
  { intros p Hp. destruct (Hbox p Hp) as (c & Hc & Hpos).
    exists c. eexists. split; [done|]. split; [by apply halves_mem_filter|].
    split; [done|]. cbv zeta. unfold deref. rewrite Hc. simpl.
    destruct (decide (pos_on ax c < th)) as [Hlow|Hhigh].
    - split_and!; [done|done|done].
    - split_and!; [|destruct ax; simpl in *;
                    match goal with |- context [?a <? ?b] =>
                      destruct (Z.ltb_spec a b) end; lia|done].
      intros ax' Hne. by destruct ax, ax'. }
  (* the whole subset is handed to one recursive call *)
  assert (∃ shift m'',
            (∀ p, p ∈ cus → ∃ c c0, m !! p = Some c ∧ m0 !! p = Some c0 ∧
               (∀ ax', 0 ≤ pos_on ax' c < node_box th dir node ax') ∧
               (∀ ax', ax' ≠ ax → pos_on ax' c0 = pos_on ax' c) ∧
               pos_on ax c = pos_on ax c0 + shift ∧ 0 ≤ pos_on ax c0 < th) ∧
            fsync_partition_subtree fuel cus sd th' sn m0 = Some (false, m''))
    as (shift & m'' & Hshift & Hwhole).
  { destruct (filter_no_split _ cus Hact) as [(El & Eh & Hall)|(El & Eh & Hall)];
      rewrite El, Eh in *.
    - exists 0, m1. split; [|done]. intros p Hp.
      destruct (Hm0 p Hp) as (c & c0 & Hc & Hc0 & Hpos & Hoth & Hax & Hiff).
      exists c, c0. split_and!; try done.
      all: specialize (Hall p Hp); apply Hiff in Hall;
        destruct (decide (pos_on ax c < th)); [|done]; specialize (Hpos ax); lia.
    - apply subtree_nil in Hrl as [_ ->].
      exists th, m'. split; [|done]. intros p Hp.
      destruct (Hm0 p Hp) as (c & c0 & Hc & Hc0 & Hpos & Hoth & Hax & Hiff).
      exists c, c0. split_and!; try done.
      all: specialize (Hall p Hp); rewrite Hiff in Hall;
        destruct (decide (pos_on ax c < th)); [done|]; specialize (Hpos ax).
      all: assert (node_box th dir node ax ≤ 2 * th)
        by (destruct node, dir, ax; simpl; lia); lia. }
  (* below this node the subset is at one position *)
  assert (∃ x0 y0, same_pos m0 cus x0 y0) as (x0 & y0 & Hsame0).
  { destruct Hkind as [(-> & -> & Hsub)|(Hn & -> & -> & -> & ->)].
    - apply (IH k _ _ _ _ _ _ Hnd Hk Hpow Hkind1) with (2 := Hwhole).
      intros p Hp. destruct (Hshift p Hp) as (c & c0 & Hc & Hc0 & Hpos & Hoth & _ & Hnew).
      exists c0. split; [done|]. intros ax'.
      destruct (decide (ax' = ax)) as [->|Hne].
      + destruct Hsub as [(-> & -> & ->)|(-> & -> & ->)]; simpl in *; lia.
      + rewrite (Hoth ax' Hne). specialize (Hpos ax').
        destruct Hsub as [(-> & -> & ->)|(-> & -> & ->)]; destruct ax'; simpl in *;
          done || lia.
    - destruct (decide (k = 0)) as [->|Hk0].
      + (* threshold 1: every coordinate below it is 0 *)
        exists 0, 0. intros p Hp.
        destruct (Hshift p Hp) as (c & c0 & Hc & Hc0 & Hpos & Hoth & _ & Hnew).
        exists c0. split; [done|]. change (2 ^ 0) with 1 in Hpow.
        assert (∀ ax', pos_on ax' c0 = 0) as Hzero.
        { intros ax'. destruct (decide (ax' = dir_axis dir)) as [->|Hne]; [lia|].
          rewrite (Hoth ax' Hne). specialize (Hpos ax').
          assert (node_box th dir node ax' = th) as Hb1.
          { destruct node, dir, ax'; simpl in *; done. }
          lia. }
        split; [apply (Hzero x_axis)|apply (Hzero y_axis)].
      + assert (th = 2 * 2 ^ (k - 1)) as Heven.
        { rewrite Hpow, <- Z.pow_succ_r by lia. f_equal. lia. }
        assert (th / 2 = 2 ^ (k - 1)) as Hhalf.
        { rewrite Heven, (Z.mul_comm 2), Z.div_mul by lia. done. }
        assert (2 * (th / 2) = th) as Hdouble by lia.
        apply (IH (k - 1) _ _ _ _ _ _ Hnd) with (5 := Hwhole); [lia|done|done|].
        intros p Hp.
        destruct (Hshift p Hp) as (c & c0 & Hc & Hc0 & Hpos & Hoth & _ & Hnew).
        exists c0. split; [done|]. intros ax'. simpl. rewrite Hdouble.
        destruct (decide (ax' = dir_axis dir)) as [->|Hne]; [done|].
        rewrite (Hoth ax' Hne). specialize (Hpos ax').
        assert (node_box th dir node ax' = th) as Hb1.
        { destruct node, dir, ax'; simpl in *; done. }
        lia. }
  (* and so it was at one position before this node *)
  exists (match ax with x_axis => x0 + shift | y_axis => x0 end),
         (match ax with x_axis => y0 | y_axis => y0 + shift end).
  intros p Hp. destruct (Hshift p Hp) as (c & c0 & Hc & Hc0 & _ & Hoth & Hown & _).
  destruct (Hsame0 p Hp) as (c0' & Hc0' & Hx0 & Hy0).
  rewrite Hc0 in Hc0'. injection Hc0' as <-.
  exists c. split; [done|]. destruct ax; simpl in *.
  - split; [lia|]. pose proof (Hoth y_axis ltac:(done)) as E. simpl in E. lia.
  - split; [|lia]. pose proof (Hoth x_axis ltac:(done)) as E. simpl in E. lia.
Qed.

Lemma all_at_same_pos cus x y :
  all_at x y cus ↔
  same_pos (fsync_init_reqs cus) (seq 0 (length (fsync_init_reqs cus))) x y.
Proof.
  unfold all_at, same_pos, fsync_init_reqs. rewrite length_fmap. split.
  - intros Hall p Hp. apply elem_of_seq in Hp as [_ Hp]. simpl in Hp.
    destruct (lookup_lt_is_Some_2 cus p Hp) as [c Hc].
    exists (set_req c default_req). rewrite list_lookup_fmap, Hc. split; [done|].
    by apply (Forall_lookup_1 _ _ _ _ Hall Hc).
  - intros Hsame. apply Forall_lookup. intros i c Hc.
    destruct (Hsame i) as (c' & Hc' & Hx & Hy).
    { apply elem_of_seq. apply lookup_lt_Some in Hc. lia. }
    rewrite list_lookup_fmap, Hc in Hc'. injection Hc' as <-. done.
Qed.

Lemma in_grid_boxed cus d :
  Forall in_grid cus →
  boxed (fsync_init_reqs cus) (seq 0 (length (fsync_init_reqs cus)))
        (node_box FSYNC_DEFAULT_TH d hv_fs_node).
Proof.
  intros Hgrid p Hp. apply elem_of_seq in Hp as [_ Hp]. simpl in Hp.
  unfold fsync_init_reqs in *. rewrite length_fmap in Hp.
  destruct (lookup_lt_is_Some_2 cus p Hp) as [c Hc].
  exists (set_req c default_req). rewrite list_lookup_fmap, Hc. split; [done|].
  destruct (Forall_lookup_1 _ _ _ _ Hgrid Hc) as [Hx Hy].
  change FSYNC_N_CU_X with 4 in Hx. change FSYNC_N_CU_Y with 4 in Hy.
  intros ax. change (node_box FSYNC_DEFAULT_TH d hv_fs_node ax) with 4.
  by destruct ax.
Qed.

(** When no allocation fails (the embedding takes [malloc] to succeed): for
    CUs on the grid, a call fails exactly when all of them are at one
    position (which includes the calls on no CU and on one CU): otherwise
    some node splits them and the call succeeds. *)
Theorem in_grid_fails_iff_one_position cus d :
  Forall in_grid cus →
  ∃ b cus', fsync_gen_reqs cus d = Some (b, cus') ∧
            (b = false ↔ ∃ x y, all_at x y cus).
Proof.
  intros Hgrid. destruct (fsync_gen_reqs_total cus d) as [[b cus'] Hrun].
  exists b, cus'. split; [done|].
  destruct cus as [|c0 [|c1 [|c2 cus]]].
  - injection Hrun as <- <-. split; [|done]. intros _. exists 0, 0. constructor.
  - injection Hrun as <- <-. split; [|done]. intros _.
    exists (x_pos c0), (y_pos c0). by repeat constructor.
  - pose proof (in_grid_no_hop_failure _ d Hgrid) as Hnone.
    apply Forall_cons in Hgrid as [[Hx0 Hy0] [[Hx1 Hy1] _]%Forall_cons].
    change FSYNC_N_CU_X with 4 in *. change FSYNC_N_CU_Y with 4 in *.
    set (x_dist := abs_diff (x_pos c0) (x_pos c1)) in *.
    set (y_dist := abs_diff (y_pos c0) (y_pos c1)) in *.
    assert (0 ≤ x_dist ≤ 3 ∧ 0 ≤ y_dist ≤ 3 ∧
            (x_dist + y_dist = 0 ↔ x_pos c0 = x_pos c1 ∧ y_pos c0 = y_pos c1))
      as (Hdx & Hdy & Hzero).
    { unfold x_dist, y_dist, abs_diff.
      destruct (Z.ltb_spec (x_pos c1) (x_pos c0)), (Z.ltb_spec (y_pos c1) (y_pos c0)); lia. }
    assert ((∃ x y, all_at x y [c0; c1]) ↔ x_dist + y_dist = 0) as ->.
    { rewrite Hzero. split.
      - intros (x & y & [[-> ->] [[-> ->] _]%Forall_cons]%Forall_cons). done.
      - intros [Ex Ey]. exists (x_pos c0), (y_pos c0). by repeat constructor. }
    rewrite gen_reqs_pair in Hrun.
    destruct (decide (x_dist + y_dist = 0)) as [E0|E0];
      [|destruct (decide (x_dist + y_dist = 1)) as [E1|E1]].
    + unfold fsync_gen_pair in Hrun. cbn [x_pos y_pos set_req] in Hrun.
      fold x_dist y_dist in Hrun. rewrite E0 in Hrun. by injection Hrun as <- <-.
    + rewrite gen_pair_near in Hrun by done. injection Hrun as <- <-. split; [done|lia].
    + assert (wrap (x_dist + y_dist) = x_dist + y_dist) as Hw by (apply wrap_small; lia).
      rewrite gen_pair_far in Hrun by (cbn [x_pos y_pos set_req]; fold x_dist y_dist; lia).
      cbv zeta in Hrun.
      change (lockstep_hops (set_req c0 _) (set_req c1 _))
        with (lockstep_hops c0 c1) in Hrun.
      unfold hop_failure_node in Hnone. fold x_dist y_dist in Hnone. rewrite Hw in Hnone.
      destruct (Z.ltb_spec 1 (x_dist + y_dist)); [|lia].
      destruct (Z.leb_spec (lockstep_hops c0 c1) 1); [done|].
      destruct (Z.ltb_spec 1 (lockstep_hops c0 c1)); [|lia].
      injection Hrun as <- <-. split; [done|lia].
  - apply gen_reqs_many_inv in Hrun as (t & Hrun & _); [|simpl; lia].
    set (cus0 := c0 :: c1 :: c2 :: cus) in *. split.
    + intros ->.
      apply (subtree_false_one_pos _ 1) in Hrun as (x & y & Hsame).
      * exists x, y. by apply all_at_same_pos.
      * apply NoDup_seq.
      * done.
      * done.
      * by left.
      * by apply in_grid_boxed.
    + intros (x & y & Hall). apply all_at_same_pos in Hall.
      by apply (subtree_same_pos _ _ _ _ _ _ _ _ x y (NoDup_seq _ _) Hall) in Hrun.
Qed.

(** ** The helpers of the engine *)

Lemma filter_partition_ok (key : fsync_cu_t → Z) (m : mem) (cus : list ptr) th :
  partition_ok key m cus th
    (bool_decide (0 < length (filter (λ p, (key (deref m p) < th)%Z) cus))%nat
     && bool_decide (0 < length (filter (λ p, ¬ (key (deref m p) < th)%Z) cus))%nat,
     filter (λ p, key (deref m p) < th) cus,
     filter (λ p, ¬ key (deref m p) < th) cus).
Proof.
  unfold partition_ok. split_and!.
  - apply filter_app_complement.
  - apply sublist_filter.
  - apply sublist_filter.
  - rewrite <- length_app. apply Permutation_length, filter_app_complement.
  - apply Forall_forall. intros p Hp. by apply list_elem_of_filter in Hp as [? _].
  - apply Forall_forall. intros p Hp. apply list_elem_of_filter in Hp as [? _]. lia.
  - rewrite nonempty_flags. apply bool_decide_eq_true.
Qed.

(** [fsync_partition_h_cus] and [fsync_partition_v_cus] split [cus] into the
    CUs below the threshold and the CUs at or above it, in the order of
    [cus], losing and doubling none; so the two counts add up to [num_cus],
    and the flag is set iff both halves are non-empty. *)
Theorem partition_cus_spec m cus th :
  partition_ok x_pos m cus th (fsync_partition_h_cus m cus th) ∧
  partition_ok y_pos m cus th (fsync_partition_v_cus m cus th).
Proof. split; apply filter_partition_ok. Qed.

(** [fsync_update_h_poss] and [fsync_update_v_poss] on distinct CUs whose
    coordinate lies in a segment of two thresholds: every CU pointed to gets
    the offset of its coordinate within its half, which is the coordinate
    modulo the threshold, and keeps everything else; no other CU is written;
    the returned threshold is half the given one. *)
Theorem update_poss_renormalises ax cus th m :
  NoDup cus → 0 < th →
  (∀ p, p ∈ cus → ∃ c, m !! p = Some c ∧ 0 ≤ pos_on ax c < 2 * th) →
  let '(m', th2) := update_poss_on ax cus th m in
  th2 = th / 2 ∧ length m' = length m ∧
  (∀ i, i ∉ cus → m' !! i = m !! i) ∧
  (∀ p c, p ∈ cus → m !! p = Some c →
     ∃ c', m' !! p = Some c' ∧
           pos_on ax c' = pos_on ax c mod th ∧ 0 ≤ pos_on ax c' < th ∧
           (∀ ax', ax' ≠ ax → pos_on ax' c' = pos_on ax' c) ∧
           cu_id c' = cu_id c ∧ fsync_req c' = fsync_req c).
Proof.
  intros Hnd Hth Hbox.
  assert (Hmod : ∀ z, 0 ≤ z < 2 * th →
            (if z <? th then z else z - th) = z mod th ∧ 0 ≤ z mod th < th).
  { intros z Hz. split; [|apply Z.mod_pos_bound; lia].
    destruct (Z.ltb_spec z th).
    - symmetry. apply Z.mod_small. lia.
    - apply Z.mod_unique with 1; [left; lia|lia]. }
  destruct ax; cbn [update_poss_on fsync_update_h_poss fsync_update_v_poss].
  all: unfold fsync_update_h_poss, fsync_update_v_poss.
  all: split_and!; [done|apply for_each_cu_length|
                    intros i Hi; by apply for_each_cu_lookup_notin|].
  all: intros p c Hp Hc; destruct (Hbox p Hp) as (c0 & Hc0 & Hpos).
  all: rewrite Hc in Hc0; injection Hc0 as <-.
  all: rewrite for_each_cu_lookup_in, Hc by done.
  all: eexists; split; [done|].
  all: destruct (Hmod _ Hpos) as [Heq Hrange]; simpl in *.
  all: split_and!; try done; try lia.
  all: intros ax' Hne; by destruct ax'.
Qed.

Lemma update_poss_renormalises_witness :
  NoDup [0; 2]%nat ∧ 0 < 2 ∧
  (∀ p, p ∈ [0; 2]%nat →
     ∃ c, [cu 0 0 3; cu 1 0 0; cu 2 0 1] !! p = Some c ∧ 0 ≤ pos_on x_axis c < 2 * 2) ∧
  let '(m', th2) := update_poss_on x_axis [0; 2]%nat 2 [cu 0 0 3; cu 1 0 0; cu 2 0 1] in
  th2 = 2 / 2 ∧ length m' = length [cu 0 0 3; cu 1 0 0; cu 2 0 1] ∧
  (∀ i, i ∉ [0; 2]%nat → m' !! i = [cu 0 0 3; cu 1 0 0; cu 2 0 1] !! i) ∧
  (∀ p c, p ∈ [0; 2]%nat → [cu 0 0 3; cu 1 0 0; cu 2 0 1] !! p = Some c →
     ∃ c', m' !! p = Some c' ∧
           pos_on x_axis c' = pos_on x_axis c mod 2 ∧ 0 ≤ pos_on x_axis c' < 2 ∧
           (∀ ax', ax' ≠ x_axis → pos_on ax' c' = pos_on ax' c) ∧
           cu_id c' = cu_id c ∧ fsync_req c' = fsync_req c).
Proof.
  assert (NoDup [0; 2]%nat) as Hnd.
  { apply NoDup_cons. split; [|apply NoDup_singleton].
    intros H%list_elem_of_singleton. discriminate. }
  assert (∀ p, p ∈ [0; 2]%nat →
            ∃ c, [cu 0 0 3; cu 1 0 0; cu 2 0 1] !! p = Some c ∧
                 0 ≤ pos_on x_axis c < 2 * 2) as Hbox.
  { intros p [->|[->|[]%elem_of_nil]%elem_of_cons]%elem_of_cons;
      eexists; (split; [reflexivity|simpl; lia]). }
  split_and!; [exact Hnd|lia|exact Hbox|].
  exact (update_poss_renormalises x_axis [0; 2]%nat 2 _ Hnd eq_refl Hbox).
Defined.

(** A call of the engine keeps the size of the memory and the [cu_id] of
    every CU, and writes no CU outside the subset that it is given. *)
Theorem subtree_writes_only_subset fuel cus dir th node m b m' :
  fsync_partition_subtree fuel cus dir th node m = Some (b, m') →
  length m' = length m ∧
  (∀ i, i ∉ cus → m' !! i = m !! i) ∧
  Forall2 (λ c c', cu_id c' = cu_id c) m m'.
Proof.
  intros Hrun. split_and!.
  - by apply subtree_length in Hrun.
  - intros i Hi. by apply (subtree_frame _ _ _ _ _ _ _ _ i Hrun).
  - assert (PreOrder (λ c c' : fsync_cu_t, cu_id c' = cu_id c)).
    { split; [done|]. intros c1 c2 c3 H12 H23. congruence. }
    by apply (subtree_rel _ true) with fuel cus dir th node b.
Qed.

Lemma subtree_writes_only_subset_witness :
  fsync_partition_subtree 6 [0; 2]%nat h_fs_dir 2 hv_fs_node [cu 0 0 0; cu 7 3 3; cu 2 2 2]
  = Some (true, [mk_cu 0 0 0 (mk_req 8 0 hv_fs_node); cu 7 3 3;
                 mk_cu 2 0 0 (mk_req 8 0 hv_fs_node)]) ∧
  length [mk_cu 0 0 0 (mk_req 8 0 hv_fs_node); cu 7 3 3;
          mk_cu 2 0 0 (mk_req 8 0 hv_fs_node)]
  = length [cu 0 0 0; cu 7 3 3; cu 2 2 2] ∧
  (∀ i, i ∉ [0; 2]%nat →
     [mk_cu 0 0 0 (mk_req 8 0 hv_fs_node); cu 7 3 3;
      mk_cu 2 0 0 (mk_req 8 0 hv_fs_node)] !! i
     = [cu 0 0 0; cu 7 3 3; cu 2 2 2] !! i) ∧
  Forall2 (λ c c', cu_id c' = cu_id c) [cu 0 0 0; cu 7 3 3; cu 2 2 2]
    [mk_cu 0 0 0 (mk_req 8 0 hv_fs_node); cu 7 3 3; mk_cu 2 0 0 (mk_req 8 0 hv_fs_node)].
Proof.
  assert (fsync_partition_subtree 6 [0; 2]%nat h_fs_dir 2 hv_fs_node
            [cu 0 0 0; cu 7 3 3; cu 2 2 2]
          = Some (true, [mk_cu 0 0 0 (mk_req 8 0 hv_fs_node); cu 7 3 3;
                         mk_cu 2 0 0 (mk_req 8 0 hv_fs_node)])) as Hrun
    by (vm_compute; reflexivity).
  split; [exact Hrun|].
  exact (subtree_writes_only_subset _ _ _ _ _ _ _ _ Hrun).
Defined.

(** A call of the engine on at most one CU returns false: a node needs two
    CUs to be active. Requests with aggregate 0 come out as they went in. *)
Theorem subtree_lonely fuel cus dir th node m b m' :
  (length cus ≤ 1)%nat →
  fsync_partition_subtree fuel cus dir th node m = Some (b, m') →
  b = false ∧ Forall2 req_kept m m'.
Proof.
  intros Hlen Hrun. assert (b = false) as ->; [|split; [done|]].
  - revert cus dir th node m b m' Hlen Hrun.
    induction fuel as [|fuel IH]; intros cus dir th node m b m' Hlen Hrun; [done|].
    destruct (Z.le_gt_cases 1 th) as [Hth|Hth].
    + apply subtree_unfold_split in Hrun
        as (ax & th' & sd & sn & lb & hb & m1 & _ & Hrl & Hrh & ->); [|done].
      cbv zeta in *.
      destruct (filter_partition_ok (pos_on ax) m cus th)
        as (_ & _ & _ & Hsum & _ & _ & _).
      apply IH in Hrl as ->; [|lia]. apply IH in Hrh as ->; [|lia].
      rewrite bool_decide_eq_false_2; [done|].
      intros [Hl Hh]. destruct (filter _ cus), (filter _ cus); simpl in *; done || lia.
    + apply subtree_unfold in Hrun as [(_ & -> & _)|(? & _)]; [done|lia].
  - by apply subtree_false_keeps_reqs in Hrun.
Qed.

Lemma subtree_lonely_witness :
  (length [1%nat] ≤ 1)%nat ∧
  fsync_partition_subtree 6 [1%nat] v_fs_dir 2 hv_fs_node [cu 0 0 0; cu 1 3 2]
  = Some (false, [cu 0 0 0; mk_cu 1 0 0 default_req]) ∧
  false = false ∧ Forall2 req_kept [cu 0 0 0; cu 1 3 2] [cu 0 0 0; mk_cu 1 0 0 default_req].
Proof.
  assert (fsync_partition_subtree 6 [1%nat] v_fs_dir 2 hv_fs_node [cu 0 0 0; cu 1 3 2]
          = Some (false, [cu 0 0 0; mk_cu 1 0 0 default_req])) as Hrun
    by (vm_compute; reflexivity).
  assert (length [1%nat] ≤ 1)%nat as Hlen by (simpl; lia).
  split; [exact Hlen|]. split; [exact Hrun|].
  exact (subtree_lonely _ _ _ _ _ _ _ _ Hlen Hrun).
Defined.

(** ** Calls on the same CUs *)

Lemma init_reqs_ext cus1 cus2 :
  Forall2 same_place cus1 cus2 → fsync_init_reqs cus1 = fsync_init_reqs cus2.
Proof.
  induction 1 as [|c1 c2 cus1 cus2 (Hid & Hx & Hy) _ IH]; [done|].
  simpl. rewrite IH. f_equal. unfold set_req. congruence.
Qed.

Lemma gen_reqs_of_init cus d :
  fsync_gen_reqs (fsync_init_reqs cus) d = fsync_gen_reqs cus d.
Proof.
  unfold fsync_gen_reqs.
  replace (fsync_init_reqs (fsync_init_reqs cus)) with (fsync_init_reqs cus); [done|].
  apply init_reqs_ext, init_reqs_same_place.
Qed.

Lemma gen_reqs_same_place cus d b cus' :
  fsync_gen_reqs cus d = Some (b, cus') → Forall2 same_place cus cus'.
Proof.
  intros Hrun. destruct cus as [|c0 [|c1 [|c2 cus]]].
  - injection Hrun as <- <-. constructor.
  - injection Hrun as <- <-. by repeat constructor.
  - rewrite gen_reqs_pair in Hrun. apply gen_pair_same_place in Hrun.
    etrans; [|exact Hrun]. by repeat constructor.
  - apply gen_reqs_many_inv in Hrun as (t & Hrun & ->); [|simpl; lia].
    etrans; [apply init_reqs_same_place|].
    apply copy_back_same_place. by apply subtree_length in Hrun.
Qed.

(** The requests that the CUs come with do not matter: two arrays with the
    same [cu_id], [x_pos] and [y_pos] at every index give the same flag and
    the same array. Nothing of an earlier call leaks into the next one. *)
Theorem gen_reqs_ignores_old_requests cus1 cus2 d :
  Forall2 same_place cus1 cus2 →
  fsync_gen_reqs cus1 d = fsync_gen_reqs cus2 d.
Proof.
  intros Hsame. unfold fsync_gen_reqs. by rewrite (init_reqs_ext _ _ Hsame).
Qed.

Lemma gen_reqs_ignores_old_requests_witness :
  Forall2 same_place [mk_cu 0 0 0 (mk_req 9 3 hv_fs_node); mk_cu 1 1 1 (mk_req 7 2 v_fs_node)]
                     [cu 0 0 0; cu 1 1 1] ∧
  fsync_gen_reqs [mk_cu 0 0 0 (mk_req 9 3 hv_fs_node); mk_cu 1 1 1 (mk_req 7 2 v_fs_node)]
                 h_fs_dir
  = fsync_gen_reqs [cu 0 0 0; cu 1 1 1] h_fs_dir.
Proof.
  assert (Forall2 same_place
            [mk_cu 0 0 0 (mk_req 9 3 hv_fs_node); mk_cu 1 1 1 (mk_req 7 2 v_fs_node)]
            [cu 0 0 0; cu 1 1 1]) as Hsame by (by repeat constructor).
  split; [exact Hsame|].
  exact (gen_reqs_ignores_old_requests _ _ h_fs_dir Hsame).
Defined.

(** Calling again on the array that a call has written gives the same flag
    and leaves the array as it is. *)
Theorem gen_reqs_again cus d b cus' :
  fsync_gen_reqs cus d = Some (b, cus') →
  fsync_gen_reqs cus' d = Some (b, cus').
Proof.
  intros Hrun. rewrite <- Hrun. unfold fsync_gen_reqs.
  rewrite (init_reqs_ext cus' cus); [done|].
  apply gen_reqs_same_place in Hrun.
  induction Hrun as [|c c' cus cus' (Hid & Hx & Hy) _ IH]; constructor; [|done].
  unfold same_place. auto.
Qed.

Lemma gen_reqs_again_witness :
  fsync_gen_reqs [cu 0 0 0; cu 1 1 0; cu 2 3 0] h_fs_dir
  = Some (true, [mk_cu 0 0 0 (mk_req 5 1 v_fs_node); mk_cu 1 1 0 (mk_req 5 1 v_fs_node);
                 mk_cu 2 3 0 (mk_req 4 1 v_fs_node)]) ∧
  fsync_gen_reqs [mk_cu 0 0 0 (mk_req 5 1 v_fs_node); mk_cu 1 1 0 (mk_req 5 1 v_fs_node);
                  mk_cu 2 3 0 (mk_req 4 1 v_fs_node)] h_fs_dir
  = Some (true, [mk_cu 0 0 0 (mk_req 5 1 v_fs_node); mk_cu 1 1 0 (mk_req 5 1 v_fs_node);
                 mk_cu 2 3 0 (mk_req 4 1 v_fs_node)]).
Proof.
  assert (fsync_gen_reqs [cu 0 0 0; cu 1 1 0; cu 2 3 0] h_fs_dir
          = Some (true, [mk_cu 0 0 0 (mk_req 5 1 v_fs_node);
                         mk_cu 1 1 0 (mk_req 5 1 v_fs_node);
                         mk_cu 2 3 0 (mk_req 4 1 v_fs_node)])) as Hrun
    by (vm_compute; reflexivity).
  split; [exact Hrun|].
  exact (gen_reqs_again _ _ _ _ Hrun).
Defined.

(** ** Two CUs, either order, either default direction *)

Lemma abs_diff_comm x y : abs_diff x y = abs_diff y x.
Proof. unfold abs_diff. destruct (Z.ltb_spec y x), (Z.ltb_spec x y); lia. Qed.

Lemma same_subtree_comm p0 p1 th :
  fsync_same_subtree p1 p0 th = fsync_same_subtree p0 p1 th.
Proof.
  unfold fsync_same_subtree.
  by rewrite (andb_comm (p1 <? th)), (andb_comm (th <=? p1)).
Qed.

Lemma axis_walk_comm fuel p0 p1 th :
  axis_walk fuel p1 p0 th = axis_walk fuel p0 p1 th.
Proof.
  revert p0 p1 th. induction fuel as [|fuel IH]; intros p0 p1 th; [done|].
  simpl. rewrite same_subtree_comm. destruct (_ && _); [|done]. f_equal. apply IH.
Qed.

Lemma lockstep_hops_comm c0 c1 : lockstep_hops c1 c0 = lockstep_hops c0 c1.
Proof.
  unfold lockstep_hops, axis_steps.
  by rewrite (axis_walk_comm _ (x_pos c0) (x_pos c1)),
             (axis_walk_comm _ (y_pos c0) (y_pos c1)).
Qed.

Lemma nbr_id_comm dir c0 c1 : nbr_id dir c1 c0 = nbr_id dir c0 c1.
Proof.
  destruct dir; simpl; rewrite !nbr_node_odd.
  - by rewrite (Z.min_comm (x_pos c1)).
  - by rewrite (Z.min_comm (y_pos c1)).
Qed.

(** Both CUs of a call on two CUs always end with one and the same request;
    when the call succeeds its aggregate is a single bit, 1, 2, 4 or 8. *)
Theorem pair_same_request c0 c1 d :
  ∃ b r,
    fsync_gen_reqs [c0; c1] d = Some (b, [set_req c0 r; set_req c1 r]) ∧
    (b = true → fs_req_aggr r = 1 ∨ fs_req_aggr r = 2 ∨
                fs_req_aggr r = 4 ∨ fs_req_aggr r = 8).
Proof.
  rewrite gen_reqs_pair.
  set (x_dist := abs_diff (x_pos c0) (x_pos c1)).
  set (y_dist := abs_diff (y_pos c0) (y_pos c1)).
  destruct (Z.ltb_spec 1 (wrap (x_dist + y_dist))) as [Hfar|Hnear].
  - rewrite gen_pair_far by done. cbv zeta.
    change (lockstep_hops (set_req c0 _) (set_req c1 _)) with (lockstep_hops c0 c1).
    pose proof (lockstep_hops_range c0 c1) as Hr. change FSYNC_N_LVL with 4 in Hr.
    destruct (Z.ltb_spec 1 (lockstep_hops c0 c1)) as [Hh|Hh].
    + eexists true, _. split; [reflexivity|]. intros _.
      assert (lockstep_hops c0 c1 = 2 ∨ lockstep_hops c0 c1 = 3 ∨ lockstep_hops c0 c1 = 4)
        as [->|[->| ->]] by lia.
      all: destruct (deciding_dir _ _ d); simpl; auto.
    + eexists false, _. split; [reflexivity|done].
  - unfold fsync_gen_pair, pair_tagged. cbn [x_pos y_pos set_req]. fold x_dist y_dist.
    destruct (Z.eqb_spec (wrap (x_dist + y_dist)) 0).
    { exists false, default_req. split; [done|done]. }
    destruct (pair_tag x_dist y_dist d) as [dir tag].
    assert (wrap (x_dist + y_dist) = 1) as ->.
    { pose proof (Z.mod_pos_bound (x_dist + y_dist) (2 ^ 32)). unfold wrap in *. lia. }
    eexists true, _. split; [reflexivity|]. intros _. by left.
Qed.

Lemma gen_pair_swap c0 c1 d :
  fsync_gen_pair c1 c0 d = swap_result (fsync_gen_pair c0 c1 d).
Proof.
  unfold fsync_gen_pair, pair_tagged.
  cbn [x_pos y_pos set_req fsync_req].
  rewrite (abs_diff_comm (x_pos c1)), (abs_diff_comm (y_pos c1)).
  destruct (_ =? 0); [done|].
  destruct (pair_tag _ _ d) as [dir tag].
  destruct (_ =? 1).
  { simpl. by rewrite nbr_id_comm. }
  rewrite !pair_hops_lockstep.
  change (lockstep_hops (set_req c1 _) (set_req c0 _)) with (lockstep_hops c1 c0).
  change (lockstep_hops (set_req c0 _) (set_req c1 _)) with (lockstep_hops c0 c1).
  rewrite lockstep_hops_comm. by destruct (1 <? _).
Qed.

(** The order of the two CUs does not matter: with the CUs swapped, the call
    returns the same flag and gives each CU the same request. *)
Theorem pair_swap c0 c1 d :
  fsync_gen_reqs [c1; c0] d = swap_result (fsync_gen_reqs [c0; c1] d).
Proof. rewrite !gen_reqs_pair. apply gen_pair_swap. Qed.

(** [default_dir] only breaks ties: when the two distances differ, the call
    on two CUs gives the same result for either default direction. *)
Theorem pair_default_dir_only_on_tie c0 c1 d d' :
  abs_diff (x_pos c0) (x_pos c1) ≠ abs_diff (y_pos c0) (y_pos c1) →
  fsync_gen_reqs [c0; c1] d = fsync_gen_reqs [c0; c1] d'.
Proof.
  intros Hne. rewrite !gen_reqs_pair. unfold fsync_gen_pair, pair_tagged.
  cbn [x_pos y_pos set_req fsync_req].
  assert (pair_tag (abs_diff (x_pos c0) (x_pos c1)) (abs_diff (y_pos c0) (y_pos c1)) d
          = pair_tag (abs_diff (x_pos c0) (x_pos c1)) (abs_diff (y_pos c0) (y_pos c1)) d')
    as ->; [|done].
  unfold pair_tag. destruct (_ <? _); [done|].
  by destruct (Z.eqb_spec (abs_diff (x_pos c0) (x_pos c1)) (abs_diff (y_pos c0) (y_pos c1))).
Qed.

Lemma pair_default_dir_only_on_tie_witness :
  abs_diff 0 3 ≠ abs_diff 0 1 ∧
  fsync_gen_reqs [cu 0 0 0; cu 1 1 3] h_fs_dir = fsync_gen_reqs [cu 0 0 0; cu 1 1 3] v_fs_dir.
Proof.
  assert (abs_diff 0 3 ≠ abs_diff 0 1) as Hne by discriminate.
  split; [exact Hne|].
  exact (pair_default_dir_only_on_tie (cu 0 0 0) (cu 1 1 3) h_fs_dir v_fs_dir Hne).
Defined.

Lemma in_grid_fails_iff_one_position_witness :
  Forall in_grid [cu 0 0 0; cu 1 0 0; cu 2 1 0] ∧
  ∃ b cus', fsync_gen_reqs [cu 0 0 0; cu 1 0 0; cu 2 1 0] v_fs_dir = Some (b, cus') ∧
            (b = false ↔ ∃ x y, all_at x y [cu 0 0 0; cu 1 0 0; cu 2 1 0]).
Proof.
  assert (Forall in_grid [cu 0 0 0; cu 1 0 0; cu 2 1 0]) as Hgrid.
  { repeat constructor; simpl; unfold FSYNC_N_CU_X, FSYNC_N_CU_Y; lia. }
  split; [exact Hgrid|].
  exact (in_grid_fails_iff_one_position _ v_fs_dir Hgrid).
Defined.

(** ** The order of the CUs *)

(** The engine on the same CUs stored in another order, with the pointers
    in any order: the runs agree. *)
Section relabel.
Context (f : nat → nat) `{!Inj (=) (=) f}.

Lemma relabelled_deref m1 m2 p : relabelled f m1 m2 → deref m2 (f p) = deref m1 p.
Proof. intros Hm. unfold deref. by rewrite Hm. Qed.

Lemma for_each_cu_relabel body (l1 l2 : list ptr) m1 m2 :
  NoDup l1 → l2 ≡ₚ f <$> l1 → relabelled f m1 m2 →
  relabelled f (for_each_cu body l1 m1) (for_each_cu body l2 m2).
Proof.
  intros Hnd Hl Hm i.
  assert (NoDup l2) as Hnd2 by (rewrite Hl; by apply NoDup_fmap_2).
  destruct (decide (i ∈ l1)) as [Hi|Hi].
  - rewrite !for_each_cu_lookup_in, Hm; [done|done| |done|done].
    rewrite Hl. by apply list_elem_of_fmap_2.
  - rewrite !for_each_cu_lookup_notin; [done| |done].
    rewrite Hl. by rewrite list_elem_of_fmap_inj.
Qed.

Lemma filter_relabel (key : fsync_cu_t → Z) m1 m2 (cus1 cus2 : list ptr) th :
  relabelled f m1 m2 → cus2 ≡ₚ f <$> cus1 →
  filter (λ p, key (deref m2 p) < th) cus2
    ≡ₚ f <$> filter (λ p, key (deref m1 p) < th) cus1 ∧
  filter (λ p, ¬ key (deref m2 p) < th) cus2
    ≡ₚ f <$> filter (λ p, ¬ key (deref m1 p) < th) cus1.
Proof.
  intros Hm Hl. rewrite !Hl. clear Hl.
  induction cus1 as [|p cus1 [IHl IHh]]; [done|].
  rewrite fmap_cons, !filter_cons, (relabelled_deref _ _ _ Hm).
  repeat case_decide; try tauto; rewrite ?fmap_cons; (split; [done || by f_equiv|done || by f_equiv]).
Qed.

Lemma visit_halves_relabel go (l1 l2 h1 h2 : list ptr) dir node act ax th sub_th sd sn m1 m2 :
  (∀ (cus1 cus2 : list ptr) th' m1 m2,
     NoDup cus1 → cus2 ≡ₚ f <$> cus1 → relabelled f m1 m2 →
     same_run f (go cus1 sd th' sn m1) (go cus2 sd th' sn m2)) →
  NoDup l1 → l2 ≡ₚ f <$> l1 → NoDup h1 → h2 ≡ₚ f <$> h1 → relabelled f m1 m2 →
  same_run f (visit_halves go l1 h1 dir node act ax th sub_th sd sn m1)
             (visit_halves go l2 h2 dir node act ax th sub_th sd sn m2).
Proof.
  intros Hgo Hndl Hl Hndh Hh Hm. unfold visit_halves.
  assert (relabelled f (halves_mem l1 h1 dir node act ax th m1)
                       (halves_mem l2 h2 dir node act ax th m2)) as Hm'.
  { unfold halves_mem, fsync_update_cus_req, fsync_update_h_poss, fsync_update_v_poss.
    destruct ax; cbn [fst]; repeat apply for_each_cu_relabel; done. }
  unfold halves_mem, fsync_update_h_poss, fsync_update_v_poss in Hm'.
  unfold fsync_update_h_poss, fsync_update_v_poss.
  destruct ax; cbn [fst] in Hm'.
  all: pose proof (Hgo l1 l2 (sub_th (th / 2)) _ _ Hndl Hl Hm') as Hrl.
  all: destruct (go l1 _ _ _ _) as [[lb1 ml1]|], (go l2 _ _ _ _) as [[lb2 ml2]|];
    try done.
  all: destruct Hrl as [<- Hml].
  all: pose proof (Hgo h1 h2 (sub_th (th / 2)) _ _ Hndh Hh Hml) as Hrh.
  all: destruct (go h1 _ _ _ _) as [[hb1 mh1]|], (go h2 _ _ _ _) as [[hb2 mh2]|];
    try done.
  all: by destruct Hrh as [<- Hmh].
Qed.

Lemma subtree_relabel fuel (cus1 cus2 : list ptr) dir th node m1 m2 :
  NoDup cus1 → cus2 ≡ₚ f <$> cus1 → relabelled f m1 m2 →
  same_run f (fsync_partition_subtree fuel cus1 dir th node m1)
             (fsync_partition_subtree fuel cus2 dir th node m2).
Proof.
  revert cus1 cus2 dir th node m1 m2.
  induction fuel as [|fuel IH]; intros cus1 cus2 dir th node m1 m2 Hnd Hcus Hm; [done|].
  cbn [fsync_partition_subtree]. destruct (th <? 1); [done|].
  unfold fsync_partition_h_cus, fsync_partition_v_cus. cbv zeta.
  destruct (filter_relabel x_pos m1 m2 cus1 cus2 th Hm Hcus) as [Hxl Hxh].
  destruct (filter_relabel y_pos m1 m2 cus1 cus2 th Hm Hcus) as [Hyl Hyh].
  pose proof (NoDup_filter (λ p, x_pos (deref m1 p) < th) _ Hnd) as Hnxl.
  pose proof (NoDup_filter (λ p, ¬ x_pos (deref m1 p) < th) _ Hnd) as Hnxh.
  pose proof (NoDup_filter (λ p, y_pos (deref m1 p) < th) _ Hnd) as Hnyl.
  pose proof (NoDup_filter (λ p, ¬ y_pos (deref m1 p) < th) _ Hnd) as Hnyh.
  set (xl1 := filter (λ p, x_pos (deref m1 p) < th) cus1) in *.
  set (xh1 := filter (λ p, ¬ x_pos (deref m1 p) < th) cus1) in *.
  set (yl1 := filter (λ p, y_pos (deref m1 p) < th) cus1) in *.
  set (yh1 := filter (λ p, ¬ y_pos (deref m1 p) < th) cus1) in *.
  set (xl2 := filter (λ p, x_pos (deref m2 p) < th) cus2) in *.
  set (xh2 := filter (λ p, ¬ x_pos (deref m2 p) < th) cus2) in *.
  set (yl2 := filter (λ p, y_pos (deref m2 p) < th) cus2) in *.
  set (yh2 := filter (λ p, ¬ y_pos (deref m2 p) < th) cus2) in *.
  assert (length xl2 = length xl1) as -> by (by rewrite Hxl, length_fmap).
  assert (length xh2 = length xh1) as -> by (by rewrite Hxh, length_fmap).
  assert (length yl2 = length yl1) as -> by (by rewrite Hyl, length_fmap).
  assert (length yh2 = length yh1) as -> by (by rewrite Hyh, length_fmap).
  assert (∀ sd sn (c1 c2 : list ptr) th' n1 n2,
            NoDup c1 → c2 ≡ₚ f <$> c1 → relabelled f n1 n2 →
            same_run f (fsync_partition_subtree fuel c1 sd th' sn n1)
                       (fsync_partition_subtree fuel c2 sd th' sn n2)) as Hgo
    by (intros; by apply IH).
  generalize (bool_decide (0 < length xl1)%nat && bool_decide (0 < length xh1)%nat).
  generalize (bool_decide (0 < length yl1)%nat && bool_decide (0 < length yh1)%nat).
  intros va ha.
  destruct node, dir, ha, va; cbn [andb orb negb]; apply visit_halves_relabel; auto.
Qed.
End relabel.


Lemma relabelled_seq f `{!Inj (=) (=) f} {A} (l1 l2 : list A) :
  length l1 = length l2 → (∀ i, l1 !! i = l2 !! f i) →
  seq 0 (length l2) ≡ₚ f <$> seq 0 (length l1).
Proof.
  intros Hlen Hf. symmetry. apply submseteq_length_Permutation.
  - apply NoDup_submseteq; [apply NoDup_fmap_2; [done|apply NoDup_seq]|].
    intros j (i & -> & Hi)%list_elem_of_fmap. apply elem_of_seq in Hi.
    apply elem_of_seq. split; [lia|]. simpl.
    apply lookup_lt_is_Some. rewrite <- Hf. apply lookup_lt_is_Some. lia.
  - rewrite length_fmap, !length_seq. lia.
Qed.

(** The order of the CUs in the array does not matter, whatever their number:
    a call on a rearranged array returns the same flag, and the same CUs
    come out with the same requests. *)
Theorem gen_reqs_order_independent cus1 cus2 d b out1 :
  cus1 ≡ₚ cus2 →
  fsync_gen_reqs cus1 d = Some (b, out1) →
  ∃ out2, fsync_gen_reqs cus2 d = Some (b, out2) ∧ out1 ≡ₚ out2.
Proof.
  intros Hperm Hrun. destruct cus1 as [|c0 [|c1 [|c2 cus1]]].
  - apply Permutation_nil_l in Hperm as <-. by exists out1.
  - apply Permutation_singleton_l in Hperm as <-. by exists out1.
  - apply Permutation_length_2_inv in Hperm as [->| ->]; [by exists out1|].
    rewrite !gen_reqs_pair in *. rewrite gen_pair_swap, Hrun. eexists. split; [done|]. simpl.
    by rewrite reverse_Permutation.
  - set (cus0 := c0 :: c1 :: c2 :: cus1) in *.
    assert (3 ≤ length cus0)%nat as Hlen0 by (simpl; lia).
    apply gen_reqs_many_inv in Hrun as (t1 & Hrun & ->); [|done].
    apply Permutation_inj in Hperm as (Hlen & f & Hinj & Hf).
    rewrite gen_reqs_many by lia.
    assert (relabelled f (fsync_init_reqs cus0) (fsync_init_reqs cus2)) as Hrel.
    { intros i. unfold fsync_init_reqs. by rewrite !list_lookup_fmap, Hf. }
    assert (length (fsync_init_reqs cus0) = length (fsync_init_reqs cus2)) as Hlen'.
    { unfold fsync_init_reqs. by rewrite !length_fmap. }
    pose proof (subtree_relabel f subtree_fuel _ _ d FSYNC_DEFAULT_TH hv_fs_node _ _
                  (NoDup_seq 0 _) (relabelled_seq f _ _ Hlen' Hrel) Hrel) as Hsim.
    rewrite Hrun in Hsim.
    destruct (fsync_partition_subtree _ _ _ _ _ (fsync_init_reqs cus2))
      as [[b2 t2]|] eqn:Hrun2; [|done].
    destruct Hsim as [<- Ht]. eexists. split; [done|].
    apply subtree_length in Hrun, Hrun2.
    apply Permutation_inj. split.
    + unfold copy_back. rewrite !length_zip_with. lia.
    + exists f. split; [done|]. intros i. unfold copy_back.
      by rewrite !lookup_zip_with, (Hrel i), (Ht i).
Qed.

Lemma gen_reqs_order_independent_witness :
  [cu 0 0 0; cu 1 1 0; cu 2 3 0] ≡ₚ [cu 2 3 0; cu 0 0 0; cu 1 1 0] ∧
  fsync_gen_reqs [cu 0 0 0; cu 1 1 0; cu 2 3 0] h_fs_dir
  = Some (true, [mk_cu 0 0 0 (mk_req 5 1 v_fs_node); mk_cu 1 1 0 (mk_req 5 1 v_fs_node);
                 mk_cu 2 3 0 (mk_req 4 1 v_fs_node)]) ∧
  ∃ out2, fsync_gen_reqs [cu 2 3 0; cu 0 0 0; cu 1 1 0] h_fs_dir = Some (true, out2) ∧
          [mk_cu 0 0 0 (mk_req 5 1 v_fs_node); mk_cu 1 1 0 (mk_req 5 1 v_fs_node);
           mk_cu 2 3 0 (mk_req 4 1 v_fs_node)] ≡ₚ out2.
Proof.
  assert ([cu 0 0 0; cu 1 1 0; cu 2 3 0] ≡ₚ [cu 2 3 0; cu 0 0 0; cu 1 1 0]) as Hperm
    by exact (Permutation_sym (Permutation_cons_append [cu 0 0 0; cu 1 1 0] (cu 2 3 0))).
  assert (fsync_gen_reqs [cu 0 0 0; cu 1 1 0; cu 2 3 0] h_fs_dir
          = Some (true, [mk_cu 0 0 0 (mk_req 5 1 v_fs_node);
                         mk_cu 1 1 0 (mk_req 5 1 v_fs_node);
                         mk_cu 2 3 0 (mk_req 4 1 v_fs_node)])) as Hrun
    by (vm_compute; reflexivity).
  split; [exact Hperm|]. split; [exact Hrun|].
  exact (gen_reqs_order_independent _ _ _ _ _ Hperm Hrun).
Defined.

(** ** CUs at one position *)

(** Two CUs of the subset that enter a call of the engine at one position
    with one request leave it so. *)
Lemma subtree_twins fuel cus dir th node m b m' p q cp cq :
  NoDup cus → p ∈ cus → q ∈ cus →
  m !! p = Some cp → m !! q = Some cq → twins cp cq →
  fsync_partition_subtree fuel cus dir th node m = Some (b, m') →
  ∃ cp' cq', m' !! p = Some cp' ∧ m' !! q = Some cq' ∧ twins cp' cq'.
Proof.
  revert cus dir th node m b m' cp cq.
  induction fuel as [|fuel IH];
    intros cus dir th node m b m' cp cq Hnd Hp Hq Hcp Hcq Htw Hrun; [done|].
  apply subtree_unfold in Hrun
    as [(_ & _ & ->)|(_ & act & ax & l & h & th' & sd & sn & lb & hb & m1 &
                      -> & -> & _ & _ & Hrl & Hrh & _)].
  { by exists cp, cq. }
  pose proof (halves_mem_filter cus dir node act ax th m p cp Hnd Hp Hcp) as Hp0.
  pose proof (halves_mem_filter cus dir node act ax th m q cq Hnd Hq Hcq) as Hq0.
  cbv zeta in Hp0, Hq0.
  destruct (filter_halves (λ r, pos_on ax (deref m r) < th) cus)
    as (_ & _ & Hdisj & Hnd').
  destruct (Hnd' Hnd) as [Hndl Hndh].
  assert (deref m p = cp) as Hdp by (unfold deref; by rewrite Hcp).
  assert (deref m q = cq) as Hdq by (unfold deref; by rewrite Hcq).
  destruct Htw as (Hx & Hy & Hr).
  assert (pos_on ax cp = pos_on ax cq) as Hax by (by destruct ax).
  rewrite <- Hax, <- Hr in Hq0.
  destruct (decide (pos_on ax cp < th)) as [Hlow|Hhigh].
  - assert (p ∈ filter (λ r, pos_on ax (deref m r) < th) cus) as Hpl.
    { apply list_elem_of_filter. by rewrite Hdp. }
    assert (q ∈ filter (λ r, pos_on ax (deref m r) < th) cus) as Hql.
    { apply list_elem_of_filter. rewrite Hdq, <- Hax. done. }
    destruct (IH _ _ _ _ _ _ _ _ _ Hndl Hpl Hql Hp0 Hq0 ltac:(done) Hrl)
      as (cp' & cq' & Hp1 & Hq1 & Htw').
    exists cp', cq'.
    rewrite (subtree_frame _ _ _ _ _ _ _ _ p Hrh) by (by apply Hdisj).
    by rewrite (subtree_frame _ _ _ _ _ _ _ _ q Hrh) by (by apply Hdisj).
  - assert (p ∈ filter (λ r, ¬ pos_on ax (deref m r) < th) cus) as Hph.
    { apply list_elem_of_filter. by rewrite Hdp. }
    assert (q ∈ filter (λ r, ¬ pos_on ax (deref m r) < th) cus) as Hqh.
    { apply list_elem_of_filter. rewrite Hdq, <- Hax. done. }
    assert (p ∉ filter (λ r, pos_on ax (deref m r) < th) cus) as Hpl.
    { intros Hpl. by apply (Hdisj p Hpl). }
    assert (q ∉ filter (λ r, pos_on ax (deref m r) < th) cus) as Hql.
    { intros Hql. by apply (Hdisj q Hql). }
    rewrite <- (subtree_frame _ _ _ _ _ _ _ _ p Hrl Hpl) in Hp0.
    rewrite <- (subtree_frame _ _ _ _ _ _ _ _ q Hrl Hql) in Hq0.
    eapply IH; [exact Hndh|exact Hph|exact Hqh|exact Hp0|exact Hq0| |exact Hrh].
    unfold twins. by destruct ax; simpl; rewrite ?Hx, ?Hy.
Qed.

(** CUs at the same position get the same request, whatever their number and
    their place in the array. *)
Theorem same_position_same_request cus d b cus' i j ci cj :
  fsync_gen_reqs cus d = Some (b, cus') →
  cus !! i = Some ci → cus !! j = Some cj →
  x_pos ci = x_pos cj → y_pos ci = y_pos cj →
  ∃ ci' cj', cus' !! i = Some ci' ∧ cus' !! j = Some cj' ∧
             fsync_req ci' = fsync_req cj'.
Proof.
  intros Hrun Hi Hj Hx Hy.
  destruct (decide (i = j)) as [->|Hij].
  { pose proof (gen_reqs_same_place _ _ _ _ Hrun) as Hsame.
    destruct (Forall2_lookup_l _ _ _ _ _ Hsame Hi) as (ci' & Hi' & _).
    by exists ci', ci'. }
  destruct cus as [|c0 [|c1 [|c2 cus]]].
  - done.
  - destruct i, j; done.
  - assert (abs_diff (x_pos c0) (x_pos c1) + abs_diff (y_pos c0) (y_pos c1) = 0) as Hz.
    { destruct i as [|[|]], j as [|[|]]; simplify_eq/=; unfold abs_diff;
        rewrite ?Hx, ?Hy, ?Z.ltb_irrefl; try lia;
        rewrite <- ?Hx, <- ?Hy, ?Z.ltb_irrefl; lia. }
    rewrite gen_reqs_pair in Hrun. unfold fsync_gen_pair in Hrun.
    cbn [x_pos y_pos set_req] in Hrun. rewrite Hz in Hrun. injection Hrun as <- <-.
    destruct i as [|[|]], j as [|[|]]; simplify_eq/=; by eexists _, _.
  - set (cus0 := c0 :: c1 :: c2 :: cus) in *.
    apply gen_reqs_many_inv in Hrun as (t & Hrun & ->); [|simpl; lia].
    assert (fsync_init_reqs cus0 !! i = Some (set_req ci default_req)) as Hi0.
    { unfold fsync_init_reqs. by rewrite list_lookup_fmap, Hi. }
    assert (fsync_init_reqs cus0 !! j = Some (set_req cj default_req)) as Hj0.
    { unfold fsync_init_reqs. by rewrite list_lookup_fmap, Hj. }
    assert (length (fsync_init_reqs cus0) = length cus0) as Hlen.
    { unfold fsync_init_reqs. by rewrite length_fmap. }
    assert (i ∈ seq 0 (length (fsync_init_reqs cus0))) as Hiseq.
    { apply elem_of_seq. apply lookup_lt_Some in Hi. lia. }
    assert (j ∈ seq 0 (length (fsync_init_reqs cus0))) as Hjseq.
    { apply elem_of_seq. apply lookup_lt_Some in Hj. lia. }
    destruct (subtree_twins _ _ _ _ _ _ _ _ i j _ _ (NoDup_seq 0 _) Hiseq Hjseq Hi0 Hj0
                ltac:(done) Hrun) as (ti & tj & Hti & Htj & _ & _ & Hreq).
    exists (set_req (set_req ci default_req) (fsync_req ti)),
           (set_req (set_req cj default_req) (fsync_req tj)).
    unfold copy_back. rewrite !lookup_zip_with, Hi0, Hj0, Hti, Htj. done.
Qed.

Lemma same_position_same_request_witness :
  fsync_gen_reqs [cu 0 0 0; cu 1 1 0; cu 2 1 0] h_fs_dir
  = Some (true, [mk_cu 0 0 0 (mk_req 1 1 v_fs_node); mk_cu 1 1 0 (mk_req 1 1 v_fs_node);
                 mk_cu 2 1 0 (mk_req 1 1 v_fs_node)]) ∧
  [cu 0 0 0; cu 1 1 0; cu 2 1 0] !! 1%nat = Some (cu 1 1 0) ∧
  [cu 0 0 0; cu 1 1 0; cu 2 1 0] !! 2%nat = Some (cu 2 1 0) ∧
  x_pos (cu 1 1 0) = x_pos (cu 2 1 0) ∧ y_pos (cu 1 1 0) = y_pos (cu 2 1 0) ∧
  ∃ ci' cj',
    [mk_cu 0 0 0 (mk_req 1 1 v_fs_node); mk_cu 1 1 0 (mk_req 1 1 v_fs_node);
     mk_cu 2 1 0 (mk_req 1 1 v_fs_node)] !! 1%nat = Some ci' ∧
    [mk_cu 0 0 0 (mk_req 1 1 v_fs_node); mk_cu 1 1 0 (mk_req 1 1 v_fs_node);
     mk_cu 2 1 0 (mk_req 1 1 v_fs_node)] !! 2%nat = Some cj' ∧
    fsync_req ci' = fsync_req cj'.
Proof.
  assert (fsync_gen_reqs [cu 0 0 0; cu 1 1 0; cu 2 1 0] h_fs_dir
          = Some (true, [mk_cu 0 0 0 (mk_req 1 1 v_fs_node);
                         mk_cu 1 1 0 (mk_req 1 1 v_fs_node);
                         mk_cu 2 1 0 (mk_req 1 1 v_fs_node)])) as Hrun
    by (vm_compute; reflexivity).
  split; [exact Hrun|]. split; [reflexivity|]. split; [reflexivity|].
  split; [reflexivity|]. split; [reflexivity|].
  exact (same_position_same_request _ _ _ _ 1%nat 2%nat _ _ Hrun eq_refl eq_refl
           eq_refl eq_refl).
Defined.
